(** * OxygenMathLite: a shallow embedding of the vector / matrix toolkit

    The C++ header fixes one scalar type [real] at build time ([float], or
    [double] under [DOUBLE_PRECISION]) and builds [Vec2], [Vec3], [Mat2],
    [Geometry2D] and [Integration2D] on it.  The scalar is embedded as an
    IEEE-754 binary floating-point number ([spec_float] of the Standard
    Library), every arithmetic operator as the correctly rounded operation of
    the chosen format, so that each definition below can be evaluated on
    concrete inputs.  [std::cos] and [std::sin] are not specified by IEEE-754:
    they are a parameter of the development ([Libm]).

    Three variants of the header are in the repository:
    - [include/OxygenMathLite.h], the one the test program includes (modules
      [Vec2], [Vec3], [Mat2], [MathTools], [Geometry2D], [Integration2D]);
    - a variant with [Vec2] and [Vec3] only (module [Part000]), which
      declares [Vec2::operator==];
    - a variant with [Vec2] only (module [Part001]), whose [Vec2::project]
      and [Vec2::isUnit] are written differently. *)

From Stdlib Require Import ZArith Bool Lia.
From Stdlib Require Import Floats.SpecFloat.

Local Open Scope Z_scope.

(** ** Scalar policy *)

(** [#ifdef DOUBLE_PRECISION using real = double; #else using real = float;] *)
Inductive Precision := Single | Double.
Existing Class Precision.

Definition real := spec_float.

Definition prec (P : Precision) : Z :=
  match P with Single => 24 | Double => 53 end.

Definition emax (P : Precision) : Z :=
  match P with Single => 128 | Double => 1024 end.

(** The math library the header calls into. *)
Class Libm := { cos : real -> real; sin : real -> real }.

Declare Scope real_scope.
Delimit Scope real_scope with real.

Section Scalar.
Context {P : Precision}.

Definition radd (a b : real) : real := SFadd (prec P) (emax P) a b.
Definition rsub (a b : real) : real := SFsub (prec P) (emax P) a b.
Definition rmul (a b : real) : real := SFmul (prec P) (emax P) a b.
Definition rdiv (a b : real) : real := SFdiv (prec P) (emax P) a b.
Definition rneg (a : real) : real := SFopp a.
Definition rsqrt (a : real) : real := SFsqrt (prec P) (emax P) a.
Definition rfabs (a : real) : real := SFabs a.

(** [a < b], [a > b] and [a == b] on scalars; all three are false as soon
    as one side is NaN. *)
Definition rltb (a b : real) : bool := SFltb a b.
Definition rgtb (a b : real) : bool := SFltb b a.
Definition reqb (a b : real) : bool := SFeqb a b.

(** An integer literal used where a [real] is expected, [m * 2^e] for the
    power-of-two literals, and a decimal literal [n / d] (correctly rounded
    when [n] and [d] are representable, as all the ones below are). *)
Definition of_Z (n : Z) : real := binary_normalize (prec P) (emax P) n 0 false.
Definition of_pow2 (m e : Z) : real := binary_normalize (prec P) (emax P) m e false.
Definition dec (n d : Z) : real := rdiv (of_Z n) (of_Z d).

Definition r0 : real := S754_zero false.
Definition r1 : real := of_Z 1.
Definition r2 : real := of_Z 2.
(** [0.5f] *)
Definition rhalf : real := of_pow2 1 (-1).
End Scalar.

Infix "+" := radd : real_scope.
Infix "-" := rsub : real_scope.
Infix "*" := rmul : real_scope.
Infix "/" := rdiv : real_scope.
Notation "- a" := (rneg a) : real_scope.
Infix "<?" := rltb : real_scope.
Infix ">?" := rgtb : real_scope.
Infix "==?" := reqb (at level 70) : real_scope.

Local Open Scope real_scope.

(** ** Constants *)

Module Constants.
Section Defs.
Context {P : Precision}.

(** [3.14159265358979323846f], resp. the 36-digit [double] literal:
    the float of the format nearest to the decimal. *)
Definition PI : real :=
  match P with
  | Single => S754_finite false 13176795 (-22)
  | Double => S754_finite false 7074237752028440 (-51)
  end.

(** [1e-6f], resp. [1e-12]. *)
Definition Epsilon : real :=
  match P with
  | Single => dec 1 1000000
  | Double => dec 1 1000000000000
  end.

Definition TWO_PI : real := r2 * PI.
Definition HALF_PI : real := rhalf * PI.
Definition DEG_TO_RAD : real := PI / of_Z 180.
Definition RAD_TO_DEG : real := of_Z 180 / PI.
End Defs.
End Constants.

(** ** MathTools *)

Module MathTools.
Section Defs.
Context {P : Precision}.

(** [value < min ? min : (value > max ? max : value)] *)
Definition Clamp (value min max : real) : real :=
  if value <? min then min else if value >? max then max else value.

Definition Lerp (a b t : real) : real := a + t * (b - a).

Definition ToRadians (degrees : real) : real := degrees * Constants.DEG_TO_RAD.
Definition ToDegrees (radians : real) : real := radians * Constants.RAD_TO_DEG.
End Defs.
End MathTools.

(** ** Vec2 *)

Record Vec2_t := mkVec2 { x2 : real; y2 : real }.

Module Vec2.
Section Defs.
Context {P : Precision} {M : Libm}.

(** [operator+], [operator-], [operator*(real)], [operator/(real)],
    unary minus. *)
Definition add (a o : Vec2_t) : Vec2_t := mkVec2 (x2 a + x2 o) (y2 a + y2 o).
Definition sub (a o : Vec2_t) : Vec2_t := mkVec2 (x2 a - x2 o) (y2 a - y2 o).
Definition mul (a : Vec2_t) (s : real) : Vec2_t := mkVec2 (x2 a * s) (y2 a * s).
Definition div (a : Vec2_t) (s : real) : Vec2_t := mkVec2 (x2 a / s) (y2 a / s).
Definition neg (a : Vec2_t) : Vec2_t := mkVec2 (- x2 a) (- y2 a).

(** The free [operator*(real scalar, const Vec2 &v) { return v * scalar; }] *)
Definition smul (scalar : real) (v : Vec2_t) : Vec2_t := mul v scalar.

(** The compound assignments mutate [*this] one field after the other;
    the object after the call is returned. *)
Definition set_x (a : Vec2_t) (v : real) : Vec2_t := mkVec2 v (y2 a).
Definition set_y (a : Vec2_t) (v : real) : Vec2_t := mkVec2 (x2 a) v.

Definition add_assign (this o : Vec2_t) : Vec2_t :=
  let this := set_x this (x2 this + x2 o) in
  set_y this (y2 this + y2 o).
Definition sub_assign (this o : Vec2_t) : Vec2_t :=
  let this := set_x this (x2 this - x2 o) in
  set_y this (y2 this - y2 o).
Definition mul_assign (this : Vec2_t) (s : real) : Vec2_t :=
  let this := set_x this (x2 this * s) in
  set_y this (y2 this * s).
Definition div_assign (this : Vec2_t) (s : real) : Vec2_t :=
  let this := set_x this (x2 this / s) in
  set_y this (y2 this / s).

Definition length (a : Vec2_t) : real := rsqrt (x2 a * x2 a + y2 a * y2 a).
Definition lengthSquared (a : Vec2_t) : real := x2 a * x2 a + y2 a * y2 a.

Definition normalize (a : Vec2_t) : Vec2_t :=
  let len := length a in
  if len <? Constants.Epsilon then mkVec2 r0 r0
  else mkVec2 (x2 a / len) (y2 a / len).

(** [x = y = 0] assigns [y] first, then [x] with the value of [y]. *)
Definition normalizeSelf (this : Vec2_t) : Vec2_t :=
  let len := length this in
  if len <? Constants.Epsilon then
    let this := set_y this r0 in
    set_x this (y2 this)
  else
    let this := set_x this (x2 this / len) in
    set_y this (y2 this / len).

Definition dot (a o : Vec2_t) : real := x2 a * x2 o + y2 a * y2 o.
Definition cross (a o : Vec2_t) : real := x2 a * y2 o - y2 a * x2 o.
Definition perpendicular (a : Vec2_t) : Vec2_t := mkVec2 (- y2 a) (x2 a).

Definition rotate (a : Vec2_t) (rads : real) : Vec2_t :=
  mkVec2 (x2 a * cos rads - y2 a * sin rads)
         (x2 a * sin rads + y2 a * cos rads).

Definition project (a o : Vec2_t) : Vec2_t :=
  let len2 := lengthSquared o in
  if len2 <? Constants.Epsilon then mkVec2 r0 r0
  else smul (dot a o / len2) o.

(** [*this - 2 * dot(n) * n]: the product associates to the left, so the
    scalar [2 * dot(n)] multiplies [n] through the free operator. *)
Definition reflect (a normal : Vec2_t) : Vec2_t :=
  let n := normalize normal in
  sub a (smul (r2 * dot a n) n).

Definition clear (this : Vec2_t) : Vec2_t :=
  let this := set_y this r0 in
  set_x this (y2 this).

Definition isZero (a : Vec2_t) : bool := (x2 a ==? r0) && (y2 a ==? r0).
Definition isUnit (a : Vec2_t) : bool :=
  rfabs (lengthSquared a - r1) <? Constants.Epsilon.
End Defs.
End Vec2.

(** ** Vec3 *)

Record Vec3_t := mkVec3 { x3 : real; y3 : real; z3 : real }.

Module Vec3.
Section Defs.
Context {P : Precision}.

(** The static factories. *)
Definition Zero : Vec3_t := mkVec3 (of_Z 0) (of_Z 0) (of_Z 0).
Definition One : Vec3_t := mkVec3 (of_Z 1) (of_Z 1) (of_Z 1).
Definition Up : Vec3_t := mkVec3 (of_Z 0) (of_Z 1) (of_Z 0).
Definition Down : Vec3_t := mkVec3 (of_Z 0) (of_Z (-1)) (of_Z 0).
Definition Left : Vec3_t := mkVec3 (of_Z (-1)) (of_Z 0) (of_Z 0).
Definition Right : Vec3_t := mkVec3 (of_Z 1) (of_Z 0) (of_Z 0).
Definition Forward : Vec3_t := mkVec3 (of_Z 0) (of_Z 0) (of_Z 1).
Definition Backward : Vec3_t := mkVec3 (of_Z 0) (of_Z 0) (of_Z (-1)).

Definition add (a o : Vec3_t) : Vec3_t :=
  mkVec3 (x3 a + x3 o) (y3 a + y3 o) (z3 a + z3 o).
Definition sub (a o : Vec3_t) : Vec3_t :=
  mkVec3 (x3 a - x3 o) (y3 a - y3 o) (z3 a - z3 o).
Definition mul (a : Vec3_t) (s : real) : Vec3_t :=
  mkVec3 (x3 a * s) (y3 a * s) (z3 a * s).
Definition div (a : Vec3_t) (s : real) : Vec3_t :=
  mkVec3 (x3 a / s) (y3 a / s) (z3 a / s).
Definition neg (a : Vec3_t) : Vec3_t := mkVec3 (- x3 a) (- y3 a) (- z3 a).
Definition smul (scalar : real) (v : Vec3_t) : Vec3_t := mul v scalar.

(** [x == o.x && y == o.y && z == o.z] and [!( *this == o )] *)
Definition eqb (a o : Vec3_t) : bool :=
  (x3 a ==? x3 o) && (y3 a ==? y3 o) && (z3 a ==? z3 o).
Definition neqb (a o : Vec3_t) : bool := negb (eqb a o).

Definition set_x (a : Vec3_t) (v : real) : Vec3_t := mkVec3 v (y3 a) (z3 a).
Definition set_y (a : Vec3_t) (v : real) : Vec3_t := mkVec3 (x3 a) v (z3 a).
Definition set_z (a : Vec3_t) (v : real) : Vec3_t := mkVec3 (x3 a) (y3 a) v.

Definition length (a : Vec3_t) : real :=
  rsqrt (x3 a * x3 a + y3 a * y3 a + z3 a * z3 a).
Definition lengthSquared (a : Vec3_t) : real :=
  x3 a * x3 a + y3 a * y3 a + z3 a * z3 a.

Definition normalize (a : Vec3_t) : Vec3_t :=
  let len := length a in
  if len <? Constants.Epsilon then mkVec3 r0 r0 r0
  else mkVec3 (x3 a / len) (y3 a / len) (z3 a / len).

(** [x = y = z = 0; return;] in the degenerate branch, three in-place
    divisions otherwise. *)
Definition normalizeSelf (this : Vec3_t) : Vec3_t :=
  let len := length this in
  if len <? Constants.Epsilon then
    let this := set_z this r0 in
    let this := set_y this (z3 this) in
    set_x this (y3 this)
  else
    let this := set_x this (x3 this / len) in
    let this := set_y this (y3 this / len) in
    set_z this (z3 this / len).

Definition dot (a o : Vec3_t) : real :=
  x3 a * x3 o + y3 a * y3 o + z3 a * z3 o.
Definition cross (a o : Vec3_t) : Vec3_t :=
  mkVec3 (y3 a * z3 o - z3 a * y3 o)
         (z3 a * x3 o - x3 a * z3 o)
         (x3 a * y3 o - y3 a * x3 o).

Definition reflect (a normal : Vec3_t) : Vec3_t :=
  let n := normalize normal in
  sub a (smul (r2 * dot a n) n).

Definition project (a other : Vec3_t) : Vec3_t :=
  let lenSq := lengthSquared other in
  if lenSq <? Constants.Epsilon then mkVec3 r0 r0 r0
  else smul (dot a other / lenSq) other.

Definition clear (this : Vec3_t) : Vec3_t :=
  let this := set_z this r0 in
  let this := set_y this (z3 this) in
  set_x this (y3 this).

Definition isZero (a : Vec3_t) : bool :=
  (x3 a ==? r0) && (y3 a ==? r0) && (z3 a ==? r0).
Definition isUnit (a : Vec3_t) : bool :=
  rfabs (lengthSquared a - r1) <? Constants.Epsilon.
End Defs.
End Vec3.

(** ** Mat2 *)

Record Mat2_t := mkMat2 { m00 : real; m01 : real; m10 : real; m11 : real }.

Module Mat2.
Section Defs.
Context {P : Precision} {M : Libm}.

(** [Mat2() = default] with the member initialisers [1, 0, 0, 1]. *)
Definition identity : Mat2_t := mkMat2 r1 r0 r0 r1.

Definition apply (m : Mat2_t) (v : Vec2_t) : Vec2_t :=
  mkVec2 (m00 m * x2 v + m01 m * y2 v) (m10 m * x2 v + m11 m * y2 v).

Definition mul (m o : Mat2_t) : Mat2_t :=
  mkMat2 (m00 m * m00 o + m01 m * m10 o) (m00 m * m01 o + m01 m * m11 o)
         (m10 m * m00 o + m11 m * m10 o) (m10 m * m01 o + m11 m * m11 o).

Definition Rotation (rads : real) : Mat2_t :=
  let c := cos rads in
  let s := sin rads in
  mkMat2 c (- s) s c.
End Defs.
End Mat2.

(** ** Geometry2D *)

Module Geometry2D.
Section Defs.
Context {P : Precision}.

Definition Distance (a b : Vec2_t) : real := Vec2.length (Vec2.sub a b).
Definition DistanceSquared (a b : Vec2_t) : real :=
  Vec2.lengthSquared (Vec2.sub a b).

Definition ClosestPointOnLineSegment (a b p : Vec2_t) : Vec2_t :=
  let ab := Vec2.sub b a in
  let t := Vec2.dot (Vec2.sub p a) ab / Vec2.lengthSquared ab in
  let t := MathTools.Clamp t (of_Z 0) (of_Z 1) in
  Vec2.add a (Vec2.mul ab t).
End Defs.
End Geometry2D.

(** ** Integration2D *)

(** The integrators return nothing: they update the caller's [position] and
    [velocity] through references.  The two objects are the state; the
    acceleration and the step are read only.  (The three references are taken
    to be distinct objects, as at the call sites of the repository.) *)
Record Body := mkBody { position : Vec2_t; velocity : Vec2_t }.

Module Integration2D.
Section Defs.
Context {P : Precision}.

Definition Euler (st : Body) (acceleration : Vec2_t) (dt : real) : Body :=
  let st := mkBody (position st)
                   (Vec2.add_assign (velocity st) (Vec2.mul acceleration dt)) in
  mkBody (Vec2.add_assign (position st) (Vec2.mul (velocity st) dt))
         (velocity st).

Definition RK2 (st : Body) (acceleration : Vec2_t) (dt : real) : Body :=
  let v_mid := Vec2.add (velocity st) (Vec2.mul acceleration (dt * rhalf)) in
  let st := mkBody (Vec2.add_assign (position st) (Vec2.mul v_mid dt))
                   (velocity st) in
  mkBody (position st)
         (Vec2.add_assign (velocity st) (Vec2.mul acceleration dt)).
End Defs.
End Integration2D.

(** ** The variant with [Vec2] and [Vec3]: [Vec2] with comparison operators *)

Module Part000.
Section Defs.
Context {P : Precision}.

(** [x == other.x && y == other.y] and [!( *this == other )] *)
Definition eqb (a other : Vec2_t) : bool :=
  (x2 a ==? x2 other) && (y2 a ==? y2 other).
Definition neqb (a other : Vec2_t) : bool := negb (eqb a other).

Definition project (a other : Vec2_t) : Vec2_t :=
  let lenSq := Vec2.lengthSquared other in
  if lenSq <? Constants.Epsilon then mkVec2 r0 r0
  else Vec2.smul (Vec2.dot a other / lenSq) other.

Definition isZero (a : Vec2_t) : bool := (x2 a ==? r0) && (y2 a ==? r0).
Definition isUnit (a : Vec2_t) : bool :=
  rfabs (Vec2.lengthSquared a - r1) <? Constants.Epsilon.
End Defs.
End Part000.

(** ** The variant with [Vec2] only: the functions that differ *)

Module Part001.
Section Defs.
Context {P : Precision}.

(** [constexpr real Epsilon = 1e-6f;] in both builds: this variant has no
    [DOUBLE_PRECISION] branch for the constants, the [float] literal is
    converted to [real]. *)
Definition Epsilon : real := of_pow2 8796093 (-43).

Definition eqb (a other : Vec2_t) : bool :=
  (x2 a ==? x2 other) && (y2 a ==? y2 other).
Definition neqb (a other : Vec2_t) : bool := negb (eqb a other).

(** [real len = other.length(); if (len < Epsilon) return {0, 0};
    return {other.x / len, other.y / len};] *)
Definition project (a other : Vec2_t) : Vec2_t :=
  let len := Vec2.length other in
  if len <? Epsilon then mkVec2 r0 r0
  else mkVec2 (x2 other / len) (y2 other / len).

Definition isZero (a : Vec2_t) : bool := (x2 a ==? r0) && (y2 a ==? r0).

(** [lengthSquared() - 1 < Constants::Epsilon], no absolute value. *)
Definition isUnit (a : Vec2_t) : bool :=
  (Vec2.lengthSquared a - r1) <? Epsilon.
End Defs.
End Part001.

(** ** Vocabulary of the statements *)

(** A scalar that is neither an infinity nor NaN; NaN; a zero of either
    sign. *)
Definition is_finite (a : real) : bool :=
  match a with
  | S754_zero _ | S754_finite _ _ _ => true
  | _ => false
  end.

Definition is_nan (a : real) : bool :=
  match a with S754_nan => true | _ => false end.

Definition is_zero (a : real) : bool :=
  match a with S754_zero _ => true | _ => false end.

(** [a <= b] on scalars. *)
Definition rleb (a b : real) : bool := SFleb a b.

(** What [a == b] on scalars decides: two copies of the same number, or two
    zeros whatever their signs; NaN equals nothing. *)
Definition real_eq (a b : real) : Prop :=
  (a = b /\ is_nan a = false) \/ (is_zero a = true /\ is_zero b = true).

(** A scalar of the format: the mantissa of a finite number is normalised
    and its exponent in range.  Every operation of the format returns such
    numbers. *)
Definition valid {P : Precision} (a : real) : bool :=
  valid_binary (prec P) (emax P) a.

(** The float of sign [s] and magnitude [q * 2^e]. *)
Definition finish (s : bool) (q : Z) (e : Z) : real :=
  match q with
  | Zpos q' => S754_finite s q' e
  | _ => S754_zero s
  end.

(** Half of a number of the format: one less in the exponent, or, at the
    smallest exponent, the mantissa shifted by one bit and rounded to
    nearest even. *)
Definition halve {P : Precision} (s : bool) (m : positive) (e : Z) : real :=
  if (3 - emax P - prec P <? e)%Z then S754_finite s m (e - 1)
  else
    let r := shr_1 (Build_shr_record (Zpos m) false false) in
    finish s (round_nearest_even (shr_m r) (loc_of_shr_record r)) e.

(** Not below zero: NaN, a zero, or a positive number or infinity. *)
Definition nonneg (a : real) : bool :=
  match a with
  | S754_nan | S754_zero _ => true
  | S754_infinity s | S754_finite s _ _ => negb s
  end.

(** A zero or NaN: what a product with zero can be. *)
Definition zero_or_nan (a : real) : bool := is_zero a || is_nan a.

(** Two scalars that are opposite, or that are both [+0]: what the two
    orders of a subtraction give. *)
Definition opposite (a b : real) : Prop :=
  a = - b \/ (a = S754_zero false /\ b = S754_zero false).

(** Component-wise [==] of two [Vec2] and of two [Mat2]. *)
Definition eq2 (a b : Vec2_t) : bool := (x2 a ==? x2 b) && (y2 a ==? y2 b).
Definition eqm (a b : Mat2_t) : bool :=
  (m00 a ==? m00 b) && (m01 a ==? m01 b)
  && (m10 a ==? m10 b) && (m11 a ==? m11 b).

(** Vectors and matrices whose components are finite scalars of the
    format. *)
Definition good {P : Precision} (a : real) : bool := valid a && is_finite a.
Definition good2 {P : Precision} (v : Vec2_t) : bool :=
  good (x2 v) && good (y2 v).
Definition goodm {P : Precision} (m : Mat2_t) : bool :=
  good (m00 m) && good (m01 m) && good (m10 m) && good (m11 m).
Definition finite2 (v : Vec2_t) : bool := is_finite (x2 v) && is_finite (y2 v).
Definition finite3 (v : Vec3_t) : bool :=
  is_finite (x3 v) && is_finite (y3 v) && is_finite (z3 v).

(** [|a - b| < Epsilon] *)
Definition within_Epsilon {P : Precision} (a b : real) : bool :=
  rfabs (a - b) <? Constants.Epsilon.

(** Decimal literals of the single-precision build, [n/d] written [..f]. *)
Definition f32 (n d : Z) : real := dec (P := Single) n d.

(** The scenario of the test program: [pos(0, 0)], [vel(1, 0)],
    [acc(0, -9.8f)], step [0.1f]. *)
Definition scenario_start (P : Precision) : Body :=
  mkBody (mkVec2 (of_Z 0) (of_Z 0)) (mkVec2 (of_Z 1) (of_Z 0)).
Definition scenario_acc (P : Precision) : Vec2_t :=
  mkVec2 (of_Z 0) (- dec 98 10).
Definition scenario_dt (P : Precision) : real := dec 1 10.
Definition scenario_Euler (P : Precision) : Body :=
  Integration2D.Euler (scenario_start P) (scenario_acc P) (scenario_dt P).
Definition scenario_RK2 (P : Precision) : Body :=
  Integration2D.RK2 (scenario_start P) (scenario_acc P) (scenario_dt P).

(** The values of the C library at [HALF_PI] in single precision,
    [cosf = -4.3711388e-08f] and [sinf = 1]; no other argument is
    tabulated. *)
Definition libm_half_pi : Libm :=
  {| cos := fun r => if r ==? Constants.HALF_PI (P := Single)
                     then S754_finite true 12303662 (-48) else S754_nan;
     sin := fun r => if r ==? Constants.HALF_PI (P := Single)
                     then f32 1 1 else S754_nan |}.

(** What the C library guarantees at a zero angle: [cos(+-0) = 1] and
    [sin(+-0) = +-0]; no other argument is tabulated. *)
Definition libm_zero_angle : Libm :=
  {| cos := fun r => if is_zero r then f32 1 1 else S754_nan;
     sin := fun r => if is_zero r then r else S754_nan |}.

(** * Properties *)

(** ** Facts about the scalar operations *)

(** The literals of the header are the floats nearest to the decimals: the
    distance is at most half a unit in the last place. *)
Lemma PI_nearest :
  (2 * Z.abs (13176795 * 10 ^ 20 - 314159265358979323846 * 2 ^ 22) <= 10 ^ 20
   /\ 2 * Z.abs (7074237752028440 * 10 ^ 36
                 - 3141592653589793238462643383279502884 * 2 ^ 51) <= 10 ^ 36)%Z
  /\ Constants.PI (P := Single) = S754_finite false 13176795 (-22)
  /\ Constants.PI (P := Double) = S754_finite false 7074237752028440 (-51)
  /\ valid (P := Single) (Constants.PI (P := Single)) = true
  /\ valid (P := Double) (Constants.PI (P := Double)) = true.
Proof. vm_compute. repeat split; intro; discriminate. Qed.

(** Euclidean division and bit lengths. *)
Lemma div_eucl_unique (a b q r : Z) :
  (0 <= r < b)%Z -> (a = b * q + r)%Z -> Z.div_eucl a b = (q, r).
Proof.
  intros Hr Ha.
  pose proof (Z.div_mod_unique b (a / b) q (a mod b) r) as U.
  assert (Hb : (b <> 0)%Z) by lia.
  pose proof (Z.div_mod a b Hb) as E.
  pose proof (Z.mod_pos_bound a b ltac:(lia)) as Bd.
  destruct U as [U1 U2]; [lia|lia|lia|].
  unfold Z.div, Z.modulo in *. destruct (Z.div_eucl a b) as [q' r'].
  cbn in *. congruence.
Qed.

Lemma digits2_pos_succ (m : positive) :
  (Zpos (digits2_pos (Pos.succ m)) <= Zpos (digits2_pos m) + 1)%Z.
Proof. induction m; cbn in *; lia. Qed.

Section ScalarFacts.
Context {P : Precision}.

Lemma rmul_comm (a b : real) : a * b = b * a.
Proof.
  destruct a as [sa|sa| |sa ma ea], b as [sb|sb| |sb mb eb]; cbn;
    try reflexivity; rewrite ?(xorb_comm sa sb); try reflexivity.
  now rewrite (Pos.mul_comm ma mb), (Z.add_comm ea eb).
Qed.

(** Rounding to nearest even does not look at the sign. *)
Lemma binary_round_aux_opp (s : bool) (m e : Z) (l : location) :
  SFopp (binary_round_aux (prec P) (emax P) s m e l)
  = binary_round_aux (prec P) (emax P) (negb s) m e l.
Proof.
  unfold binary_round_aux.
  destruct (shr_fexp (prec P) (emax P) m e l) as [mrs' e'].
  destruct (shr_fexp (prec P) (emax P) _ e' loc_Exact) as [mrs'' e''].
  destruct (shr_m mrs'') as [|q|q]; cbn; try reflexivity.
  now destruct (Z.leb e'' _).
Qed.

Lemma rmul_neg_l (a b : real) : (- a) * b = - (a * b).
Proof.
  destruct a as [sa|sa| |sa ma ea], b as [sb|sb| |sb mb eb]; cbn;
    try reflexivity; try now rewrite negb_xorb_l.
  unfold rneg. now rewrite binary_round_aux_opp, negb_xorb_l.
Qed.

Lemma rsub_add_neg (a b : real) : a - b = a + (- b).
Proof.
  destruct a as [sa|sa| |sa ma ea], b as [sb|sb| |sb mb eb]; cbn;
    try reflexivity;
    now destruct sa, sb.
Qed.

(** *** Comparisons *)

Lemma SFcompare_antisym (a b : real) :
  SFcompare b a = option_map CompOpp (SFcompare a b).
Proof.
  destruct a as [sa|sa| |sa ma ea], b as [sb|sb| |sb mb eb]; cbn;
    try reflexivity; try (now destruct sa); try (now destruct sb);
    try (now destruct sa, sb).
  rewrite (Z.compare_antisym ea eb).
  pose proof (Pos.compare_cont_antisym ma mb Eq) as E; cbn in E.
  destruct sa, sb; cbn; try reflexivity;
    destruct (ea ?= eb)%Z; cbn; try reflexivity; now rewrite E.
Qed.

Lemma rltb_false_rleb (a b : real) :
  is_nan a = false -> is_nan b = false -> (a <? b) = false -> rleb b a = true.
Proof.
  unfold rltb, rleb, SFltb, SFleb. intros Ha Hb.
  rewrite (SFcompare_antisym a b).
  destruct (SFcompare a b) as [[ | | ]|] eqn:E; cbn; try easy.
  destruct a as [sa|sa| |sa ma ea], b as [sb|sb| |sb mb eb];
    cbn in *; try discriminate; try (now destruct sa); try (now destruct sb).
Qed.

Lemma rltb_inf_l (t : real) : (S754_infinity false <? t) = false.
Proof. now destruct t as [s|[|]| |s m e]. Qed.

Lemma reqb_refl (a : real) : is_nan a = false -> (a ==? a) = true.
Proof.
  destruct a as [sa|sa| |sa ma ea]; cbn; try easy; try (now destruct sa).
  intros _. unfold reqb, SFeqb; cbn.
  rewrite Z.compare_refl, Pos.compare_cont_refl. now destruct sa.
Qed.

Lemma reqb_spec (a b : real) : (a ==? b) = true <-> real_eq a b.
Proof.
  split.
  - destruct a as [sa|sa| |sa ma ea], b as [sb|sb| |sb mb eb];
      unfold reqb, SFeqb, real_eq; cbn; try discriminate;
      try (now right); try (now destruct sa); try (now destruct sb);
      try (now destruct sa, sb; (discriminate || left)).
    destruct sa, sb; try discriminate;
      destruct (ea ?= eb)%Z eqn:E; try discriminate;
      apply Z.compare_eq in E; subst eb;
      destruct (Pos.compare_cont Eq ma mb) eqn:F; try discriminate;
      apply Pos.compare_eq in F; subst mb; now left.
  - intros [[<- H]|[Ha Hb]]; [now apply reqb_refl|].
    now destruct a, b.
Qed.

(** *** Multiplying by one *)

Lemma r1_eq :
  r1 = S754_finite false (Pos.iter xO 1%positive (Z.to_pos (prec P - 1)))
                   (1 - prec P).
Proof. now destruct P. Qed.

Lemma r2_eq :
  r2 = S754_finite false (Pos.iter xO 1%positive (Z.to_pos (prec P - 1)))
                   (2 - prec P).
Proof. now destruct P. Qed.

Lemma shr_one (m : positive) :
  iter_pos shr_1 (Z.to_pos (prec P - 1))
    (shr_record_of_loc
       (Zpos (Pos.iter xO 1%positive (Z.to_pos (prec P - 1)) * m)) loc_Exact)
  = Build_shr_record (Zpos m) false false.
Proof. now destruct P. Qed.

Lemma digits_one (m : positive) :
  Zpos (digits2_pos (Pos.iter xO 1%positive (Z.to_pos (prec P - 1)) * m))
  = (Zpos (digits2_pos m) + (prec P - 1))%Z.
Proof. destruct P; cbn; lia. Qed.

Lemma prec_pred_pos : Zpos (Z.to_pos (prec P - 1)) = (prec P - 1)%Z.
Proof. now destruct P. Qed.

Lemma rmul_1_r (a : real) : valid a = true -> a * r1 = a.
Proof.
  destruct a as [s|s| |s m e];
    try (now destruct P, s); try (now destruct P).
  unfold valid, valid_binary, bounded, canonical_mantissa.
  intros Hb. apply andb_prop in Hb as [Hc Hle]. apply Z.eqb_eq in Hc.
  rewrite r1_eq. unfold rmul, SFmul.
  rewrite xorb_false_r, Pos.mul_comm.
  unfold binary_round_aux, shr_fexp at 1.
  unfold Zdigits2. rewrite digits_one.
  replace (Z.pos (digits2_pos m) + (prec P - 1) + (e + (1 - prec P)))%Z
    with (Z.pos (digits2_pos m) + e)%Z by lia.
  rewrite Hc.
  replace (e - (e + (1 - prec P)))%Z with (Zpos (Z.to_pos (prec P - 1)))
    by (rewrite prec_pred_pos; lia).
  unfold shr. rewrite shr_one.
  cbn [shr_m loc_of_shr_record round_nearest_even shr_record_of_loc].
  unfold shr_fexp, Zdigits2.
  replace (e + (1 - prec P) + Zpos (Z.to_pos (prec P - 1)))%Z with e
    by (rewrite prec_pred_pos; lia).
  rewrite Hc, Z.sub_diag. cbn [shr shr_record_of_loc shr_m].
  now rewrite Hle.
Qed.
(** *** Halving *)

Lemma rhalf_eq :
  rhalf = S754_finite false (Pos.iter xO 1%positive (Z.to_pos (prec P - 1))) (- prec P).
Proof. now destruct P. Qed.

Lemma prec_pos_eq : Zpos (Z.to_pos (prec P)) = prec P.
Proof. now destruct P. Qed.

Lemma shr_full (m : positive) :
  iter_pos shr_1 (Z.to_pos (prec P))
    (shr_record_of_loc
       (Zpos (Pos.iter xO 1%positive (Z.to_pos (prec P - 1)) * m)) loc_Exact)
  = shr_1 (Build_shr_record (Zpos m) false false).
Proof. now destruct P. Qed.

(** A mantissa that needs no shift is kept. *)
Lemma shr_fexp_tail (s : bool) (q e : Z) :
  (0 <= q)%Z -> (fexp (prec P) (emax P) (Zdigits2 q + e) <= e)%Z ->
  (e <= emax P - prec P)%Z ->
  (let '(mrs'', e'') := shr_fexp (prec P) (emax P) q e loc_Exact in
   match shr_m mrs'' with
   | Z0 => S754_zero s
   | Zpos m => if (e'' <=? emax P - prec P)%Z then S754_finite s m e''
               else S754_infinity s
   | Zneg _ => S754_nan
   end) = finish s q e.
Proof.
  intros Hq Hf He. unfold shr_fexp, shr.
  destruct (fexp (prec P) (emax P) (Zdigits2 q + e) - e)%Z eqn:E; try lia;
    cbn [shr_record_of_loc shr_m]; destruct q; try lia; cbn [finish];
    try reflexivity;
    now destruct (Z.leb_spec e (emax P - prec P)); try lia.
Qed.

Lemma halved_digits (m : positive) :
  let r := shr_1 (Build_shr_record (Zpos m) false false) in
  let q := round_nearest_even (shr_m r) (loc_of_shr_record r) in
  (0 <= q)%Z /\ (Zdigits2 q <= Zpos (digits2_pos m))%Z.
Proof.
  destruct m as [m'|m'|];
    cbn [shr_1 shr_m loc_of_shr_record orb round_nearest_even Zdigits2 digits2_pos].
  - pose proof (digits2_pos_succ m').
    destruct (Z.even (Zpos m')).
    + cbn [Zdigits2]. lia.
    + replace (Z.pos m' + 1)%Z with (Zpos (Pos.succ m')) by lia.
      cbn [Zdigits2]. lia.
  - lia.
  - cbn. lia.
Qed.

Lemma rmul_half (s : bool) (m : positive) (e : Z) :
  valid (S754_finite s m e) = true ->
  S754_finite s m e * rhalf = halve s m e.
Proof.
  unfold valid, valid_binary, bounded, canonical_mantissa.
  intros Hb. apply andb_prop in Hb as [Hc Hle]. apply Z.eqb_eq in Hc.
  apply Z.leb_le in Hle.
  rewrite rhalf_eq. unfold rmul, SFmul, halve.
  rewrite xorb_false_r, Pos.mul_comm.
  unfold binary_round_aux, shr_fexp at 1.
  unfold Zdigits2. rewrite digits_one.
  pose proof (halved_digits m) as [Hq0 Hqd].
  set (d := Z.pos (digits2_pos m)) in *.
  assert (Hd : (0 < d)%Z) by (unfold d; lia).
  unfold fexp, emin in Hc. unfold fexp at 1, emin at 1.
  destruct (Z.ltb_spec (3 - emax P - prec P) e) as [Hlt|Hge].
  - replace (Z.max (d + (prec P - 1) + (e + - prec P) - prec P) (3 - emax P - prec P)
             - (e + - prec P))%Z with (Zpos (Z.to_pos (prec P - 1)))
      by (rewrite prec_pred_pos; lia).
    unfold shr. rewrite shr_one.
    cbn [shr_m loc_of_shr_record round_nearest_even shr_record_of_loc].
    replace (e + - prec P + Z.pos (Z.to_pos (prec P - 1)))%Z with (e - 1)%Z
      by (rewrite prec_pred_pos; lia).
    apply (shr_fexp_tail s (Zpos m) (e - 1)); try lia.
    unfold fexp, emin, Zdigits2. fold d. lia.
  - assert (He : e = (3 - emax P - prec P)%Z) by lia.
    replace (Z.max (d + (prec P - 1) + (e + - prec P) - prec P) (3 - emax P - prec P)
             - (e + - prec P))%Z with (Zpos (Z.to_pos (prec P)))
      by (rewrite prec_pos_eq; lia).
    unfold shr. rewrite shr_full.
    replace (e + - prec P + Z.pos (Z.to_pos (prec P)))%Z with e
      by (rewrite prec_pos_eq; lia).
    apply shr_fexp_tail; try lia.
    unfold fexp, emin. lia.
Qed.

Lemma div_core (m1 e1 m2 e2 e' : Z) (k : positive) (q r : Z) :
  e' = Z.min (fexp (prec P) (emax P) (Zdigits2 m1 + e1 - (Zdigits2 m2 + e2)))
             (e1 - e2) ->
  (e1 - e2 - e')%Z = Zpos k ->
  Z.div_eucl (Z.shiftl m1 (Zpos k)) m2 = (q, r) ->
  SFdiv_core_binary (prec P) (emax P) m1 e1 m2 e2 = (q, e', new_location m2 r).
Proof.
  intros He' Hk Hdiv. unfold SFdiv_core_binary.
  rewrite <- He', Hk, Hdiv. reflexivity.
Qed.

Lemma digits_B :
  Zdigits2 (Zpos (Pos.iter xO 1%positive (Z.to_pos (prec P - 1)))) = prec P.
Proof. now destruct P. Qed.

Lemma B_pow2 :
  Zpos (Pos.iter xO 1%positive (Z.to_pos (prec P - 1))) = (2 ^ (prec P - 1))%Z.
Proof. now destruct P. Qed.

Lemma new_location_B (m : positive) :
  let r := shr_1 (Build_shr_record (Zpos m) false false) in
  new_location (Zpos (Pos.iter xO 1%positive (Z.to_pos (prec P - 1))))
    (if shr_r r then 2 ^ (prec P - 2) else 0)%Z
  = loc_of_shr_record r.
Proof. destruct P, m; reflexivity. Qed.

Lemma loc_of_record_of_loc (q : Z) (l : location) :
  loc_of_shr_record (shr_record_of_loc q l) = l
  /\ shr_m (shr_record_of_loc q l) = q.
Proof. now destruct l as [|[| |]]. Qed.

Lemma binary_round_aux_noshift (s : bool) (q e : Z) (l : location) :
  (0 <= q)%Z -> (fexp (prec P) (emax P) (Zdigits2 q + e) <= e)%Z ->
  (fexp (prec P) (emax P) (Zdigits2 (round_nearest_even q l) + e) <= e)%Z ->
  (e <= emax P - prec P)%Z ->
  binary_round_aux (prec P) (emax P) s q e l
  = finish s (round_nearest_even q l) e.
Proof.
  intros Hq Hf Hf' He. unfold binary_round_aux, shr_fexp at 1, shr.
  assert (Hr : (0 <= round_nearest_even q l)%Z).
  { destruct l as [|[| |]]; cbn; try lia. destruct (Z.even q); lia. }
  destruct (fexp (prec P) (emax P) (Zdigits2 q + e) - e)%Z eqn:E; try lia;
    destruct (loc_of_record_of_loc q l) as [-> ->];
    now apply shr_fexp_tail.
Qed.

Lemma rdiv_two (s : bool) (m : positive) (e : Z) :
  valid (S754_finite s m e) = true ->
  S754_finite s m e / r2 = halve s m e.
Proof.
  unfold valid, valid_binary, bounded, canonical_mantissa.
  intros Hb. apply andb_prop in Hb as [Hc Hle]. apply Z.eqb_eq in Hc.
  apply Z.leb_le in Hle.
  rewrite r2_eq. unfold rdiv, SFdiv, halve. rewrite xorb_false_r.
  pose proof (halved_digits m) as [Hq0 Hqd].
  pose proof (new_location_B m) as Hloc.
  set (B := Pos.iter xO 1%positive (Z.to_pos (prec P - 1))) in *.
  set (d := Z.pos (digits2_pos m)) in *.
  assert (Hd : (0 < d)%Z) by (unfold d; lia).
  unfold fexp, emin in Hc.
  assert (Hp : (2 < prec P)%Z) by (destruct P; cbn; lia).
  assert (HB : Zdigits2 (Zpos B) = prec P) by apply digits_B.
  assert (HB2 : Zpos B = (2 * 2 ^ (prec P - 2))%Z).
  { unfold B. rewrite B_pow2. replace (prec P - 1)%Z with (Z.succ (prec P - 2)) by lia.
    rewrite Z.pow_succ_r; lia. }
  assert (Hpow : (0 < 2 ^ (prec P - 2))%Z) by (apply Z.pow_pos_nonneg; lia).
  destruct (Z.ltb_spec (3 - emax P - prec P) e) as [Hlt|Hge].
  - destruct (Z.eq_dec e (3 - emax P - prec P + 1)) as [He1|Hne].
    + (* the quotient has the smallest exponent and the same mantissa *)
      rewrite (div_core (Zpos m) e (Zpos B) (2 - prec P) (e - 1)
                 (Z.to_pos (prec P - 1)) (Zpos m) 0).
      * replace (new_location (Zpos B) 0) with loc_Exact
          by (unfold B; now destruct P).
        rewrite binary_round_aux_noshift; try reflexivity; try lia;
          cbn [round_nearest_even]; unfold fexp, emin, Zdigits2; fold d; lia.
      * rewrite HB. unfold fexp, emin, Zdigits2. fold d. lia.
      * rewrite prec_pred_pos. lia.
      * rewrite Z.shiftl_mul_pow2, prec_pred_pos by lia.
        replace (prec P - 1)%Z with (Z.succ (prec P - 2)) by lia.
        rewrite Z.pow_succ_r by lia.
        apply div_eucl_unique; lia.
    + (* one binade down: the quotient is computed with one more bit *)
      rewrite (div_core (Zpos m) e (Zpos B) (2 - prec P) (e - 2)
                 (Z.to_pos (prec P)) (Zpos m~0) 0).
      * replace (new_location (Zpos B) 0) with loc_Exact
          by (unfold B; now destruct P).
        unfold binary_round_aux, shr_fexp at 1.
        replace (fexp (prec P) (emax P) (Zdigits2 (Z.pos m~0) + (e - 2)) - (e - 2))%Z
          with 1%Z
          by (unfold fexp, emin; cbn [Zdigits2 digits2_pos]; fold d; lia).
        cbn [shr shr_record_of_loc iter_pos shr_1 orb shr_m loc_of_shr_record
               round_nearest_even].
        replace (e - 2 + 1)%Z with (e - 1)%Z by lia.
        apply (shr_fexp_tail s (Zpos m) (e - 1)); try lia.
        unfold fexp, emin, Zdigits2. fold d. lia.
      * rewrite HB. unfold fexp, emin, Zdigits2. fold d. lia.
      * rewrite prec_pos_eq. lia.
      * rewrite Z.shiftl_mul_pow2, prec_pos_eq by lia.
        replace (prec P)%Z with (Z.succ (Z.succ (prec P - 2))) at 1 by lia.
        rewrite !Z.pow_succ_r by lia.
        apply div_eucl_unique; lia.
  - (* the smallest exponent: the last bit is rounded away *)
    assert (He : e = (3 - emax P - prec P)%Z) by lia.
    set (r := shr_1 (Build_shr_record (Zpos m) false false)) in *.
    rewrite (div_core (Zpos m) e (Zpos B) (2 - prec P) e
               (Z.to_pos (prec P - 2)) (shr_m r)
               (if shr_r r then 2 ^ (prec P - 2) else 0)%Z).
    + rewrite Hloc.
      apply binary_round_aux_noshift; try lia.
      * unfold r. destruct m; cbn; lia.
      * assert (Zdigits2 (shr_m r) <= d)%Z
          by (unfold r, d; destruct m; cbn; lia).
        unfold fexp, emin. lia.
      * unfold fexp, emin. lia.
    + rewrite HB. unfold fexp, emin, Zdigits2. fold d. lia.
    + rewrite Z2Pos.id by lia. lia.
    + rewrite Z.shiftl_mul_pow2, Z2Pos.id by lia.
      apply div_eucl_unique; unfold r; destruct m; cbn [shr_1 shr_r shr_m]; lia.
Qed.

(** The half step of [RK2]: for every scalar of the format, [dt * 0.5f] is
    [dt / 2]. *)
Lemma rmul_half_rdiv_two (dt : real) :
  valid dt = true -> dt * rhalf = dt / r2.
Proof.
  destruct dt as [s|s| |s m e]; try (destruct P, s; reflexivity);
    try (destruct P; reflexivity).
  intros V. now rewrite rmul_half, rdiv_two.
Qed.
End ScalarFacts.

(** ** Integration2D *)

(** In place and by value, the sum is the same vector. *)
Lemma add_assign_add {P : Precision} (a o : Vec2_t) :
  Vec2.add_assign a o = Vec2.add a o.
Proof. reflexivity. Qed.

(** C1, the decimals read as the floats of the build: in single precision,
    after one Euler step of the scenario, the second component of the
    position is not [-0.098f] (the first is [0.1f]). *)
Lemma Euler_scenario_position_not_exact :
  let p' := position (scenario_Euler Single) in
  (x2 p' ==? f32 1 10) = true
  /\ (y2 p' ==? - f32 98 1000) = false
  /\ p' <> mkVec2 (f32 1 10) (- f32 98 1000).
Proof. vm_compute. repeat split. discriminate. Qed.

(** C1 (amended).  [Euler] advances the velocity first, [v' = v + a*dt], and
    the position with the velocity it has just written, [p + v'*dt].  On the
    scenario, single precision: the velocity is exactly [(1, -0.98f)], the
    position is [(0.1f, -(0.98f * 0.1f))], whose second component is the
    float next to [-0.098f]; in both builds all four components are within
    [Epsilon] of [1], [-0.98], [0.1] and [-0.098]. *)
Theorem Euler_velocity_then_position :
  (forall (P : Precision) (p v a : Vec2_t) (dt : real),
      let v' := Vec2.add v (Vec2.mul a dt) in
      Integration2D.Euler (mkBody p v) a dt
      = mkBody (Vec2.add p (Vec2.mul v' dt)) v')
  /\ (let st := scenario_Euler Single in
      velocity st = mkVec2 (f32 1 1) (- f32 98 100)
      /\ x2 (position st) = f32 1 10
      /\ y2 (position st) = - (rmul (P := Single) (f32 98 100) (f32 1 10))
      /\ y2 (position st) = S754_finite true 13153338 (-27)
      /\ - f32 98 1000 = S754_finite true 13153337 (-27))
  /\ (forall P : Precision,
      let st := scenario_Euler P in
      within_Epsilon (x2 (velocity st)) r1 = true
      /\ within_Epsilon (y2 (velocity st)) (- dec 98 100) = true
      /\ within_Epsilon (x2 (position st)) (dec 1 10) = true
      /\ within_Epsilon (y2 (position st)) (- dec 98 1000) = true).
Proof.
  split; [|split].
  - intros P p v a dt v'. unfold Integration2D.Euler.
    cbn [position velocity]. now rewrite !add_assign_add.
  - vm_compute. repeat split.
  - intros [|]; vm_compute; repeat split.
Qed.

(** What the explicit Euler method would give on the scenario: the position
    advanced with the velocity before the step stays on the x axis. *)
Example explicit_Euler_differs :
  Vec2.add (P := Single) (position (scenario_start Single))
           (Vec2.mul (P := Single) (velocity (scenario_start Single))
                     (scenario_dt Single))
  = mkVec2 (f32 1 10) r0
  /\ is_zero (y2 (position (scenario_Euler Single))) = false.
Proof. vm_compute. now split. Qed.

(** C6.  [RK2] advances the position with the midpoint velocity and the
    velocity by the full step: the body becomes [(p + v_mid*dt, v + a*dt)],
    where [v_mid = v + a*(dt * 0.5f)] as the code writes the half step, which
    for every step [dt] of the format is [v_mid = v + a*(dt/2)]. *)
Theorem RK2_midpoint :
  forall (P : Precision) (p v a : Vec2_t) (dt : real),
    (let v_mid := Vec2.add v (Vec2.mul a (dt * rhalf)) in
     Integration2D.RK2 (mkBody p v) a dt
     = mkBody (Vec2.add p (Vec2.mul v_mid dt)) (Vec2.add v (Vec2.mul a dt)))
    /\ (valid dt = true ->
        let v_mid := Vec2.add v (Vec2.mul a (dt / r2)) in
        Integration2D.RK2 (mkBody p v) a dt
        = mkBody (Vec2.add p (Vec2.mul v_mid dt)) (Vec2.add v (Vec2.mul a dt))).
Proof.
  intros P p v a dt.
  assert (H : Integration2D.RK2 (mkBody p v) a dt
              = mkBody (Vec2.add p (Vec2.mul (Vec2.add v (Vec2.mul a (dt * rhalf))) dt))
                       (Vec2.add v (Vec2.mul a dt))).
  { unfold Integration2D.RK2. cbn [position velocity].
    now rewrite !add_assign_add. }
  split; [exact H|].
  intros V. cbn zeta. now rewrite <- (rmul_half_rdiv_two dt V).
Qed.

Lemma RK2_midpoint_witness :
  let v_mid :=
    Vec2.add (P := Single) (velocity (scenario_start Single))
      (Vec2.mul (P := Single) (scenario_acc Single)
         (rdiv (P := Single) (scenario_dt Single) (r2 (P := Single)))) in
  scenario_RK2 Single
  = mkBody (Vec2.add (P := Single) (position (scenario_start Single))
              (Vec2.mul (P := Single) v_mid (scenario_dt Single)))
           (Vec2.add (P := Single) (velocity (scenario_start Single))
              (Vec2.mul (P := Single) (scenario_acc Single) (scenario_dt Single))).
Proof.
  apply (proj2 (RK2_midpoint Single (position (scenario_start Single))
                  (velocity (scenario_start Single)) (scenario_acc Single)
                  (scenario_dt Single))).
  reflexivity.
Defined.

(** The body after one step of the scenario has position
    [(0.1f, -0.049000002f)] and velocity [(1, -0.98f)]; the half of the
    smallest subnormal number is a tie and rounds to zero, in the product as
    in the quotient. *)
Example RK2_scenario :
  scenario_RK2 Single
  = mkBody (mkVec2 (f32 1 10) (S754_finite true 13153338 (-28)))
           (mkVec2 (f32 1 1) (- f32 98 100))
  /\ rmul (P := Single) (S754_finite false 1 (-149)) (rhalf (P := Single))
     = S754_zero false
  /\ rdiv (P := Single) (S754_finite false 1 (-149)) (r2 (P := Single))
     = S754_zero false.
Proof. repeat split. Qed.

(** ** Vec2 and Vec3: normalisation *)

(** C3.  [normalize] returns the zero vector when [length() < Epsilon] and the
    vector of the components divided by the length otherwise; it is a total
    function, with no failure value; [normalizeSelf] leaves in the object the
    vector [normalize] returns, by the same case split.  For both
    dimensions. *)
Theorem normalize_case_split :
  forall P : Precision,
    (forall v : Vec2_t,
        Vec2.normalize v
        = (if Vec2.length v <? Constants.Epsilon then mkVec2 r0 r0
           else mkVec2 (x2 v / Vec2.length v) (y2 v / Vec2.length v))
        /\ Vec2.normalizeSelf v = Vec2.normalize v)
    /\ (forall v : Vec3_t,
        Vec3.normalize v
        = (if Vec3.length v <? Constants.Epsilon then mkVec3 r0 r0 r0
           else mkVec3 (x3 v / Vec3.length v) (y3 v / Vec3.length v)
                       (z3 v / Vec3.length v))
        /\ Vec3.normalizeSelf v = Vec3.normalize v).
Proof.
  intros P; split; intros v; split; [reflexivity| |reflexivity| ].
  - unfold Vec2.normalizeSelf, Vec2.normalize, Vec2.set_x, Vec2.set_y.
    now destruct (Vec2.length v <? Constants.Epsilon).
  - unfold Vec3.normalizeSelf, Vec3.normalize, Vec3.set_x, Vec3.set_y, Vec3.set_z.
    now destruct (Vec3.length v <? Constants.Epsilon).
Qed.

(** The zero vector, a vector shorter than [Epsilon], the 3-4-5 triangle, and
    a vector with a NaN component, whose length is NaN and not below
    [Epsilon]: the division branch is taken and NaN comes back. *)
Example normalize_examples :
  Vec2.normalize (P := Single) (mkVec2 r0 r0) = mkVec2 r0 r0
  /\ Vec2.normalize (P := Single) (mkVec2 (f32 1 10000000) r0) = mkVec2 r0 r0
  /\ Vec2.normalize (P := Single) (mkVec2 (f32 3 1) (f32 4 1))
     = mkVec2 (f32 6 10) (f32 8 10)
  /\ Vec2.normalize (P := Single) (mkVec2 S754_nan r0)
     = mkVec2 S754_nan S754_nan
  /\ Vec3.normalize (P := Single) (mkVec3 (f32 1 1) (f32 2 1) (f32 2 1))
     = mkVec3 (f32 1 3) (f32 2 3) (f32 2 3).
Proof. vm_compute. repeat split. Qed.

(** ** Vec2 and Vec3: predicates and comparison *)

Lemma isZero_spec (v : Vec2_t) :
  Vec2.isZero v = true <-> is_zero (x2 v) = true /\ is_zero (y2 v) = true.
Proof.
  unfold Vec2.isZero. rewrite andb_true_iff.
  destruct v as [[sx|sx| |sx mx ex] [sy|sy| |sy my ey]]; cbn;
    try tauto; try (destruct sx; cbn; intuition discriminate);
    try (destruct sy; cbn; intuition discriminate).
Qed.

Lemma isZero3_spec (v : Vec3_t) :
  Vec3.isZero v = true
  <-> is_zero (x3 v) = true /\ is_zero (y3 v) = true /\ is_zero (z3 v) = true.
Proof.
  unfold Vec3.isZero. rewrite !andb_true_iff.
  assert (H : forall a, (a ==? r0) = true <-> is_zero a = true).
  { intros [s|s| |s m e]; cbn; try tauto; destruct s; cbn; intuition discriminate. }
  rewrite !H. tauto.
Qed.

(** The main header and the [Vec2]/[Vec3] variant: [isUnit] is the tolerance
    test on the squared length; [isZero] is the exact test in all three. *)
Lemma isUnit_spec {P : Precision} :
  (forall v : Vec2_t,
      Vec2.isUnit v = (rfabs (Vec2.lengthSquared v - r1) <? Constants.Epsilon)
      /\ Part000.isUnit v = Vec2.isUnit v
      /\ Part000.isZero v = Vec2.isZero v
      /\ Part001.isZero v = Vec2.isZero v)
  /\ (forall v : Vec3_t,
      Vec3.isUnit v = (rfabs (Vec3.lengthSquared v - r1) <? Constants.Epsilon)).
Proof. now split. Qed.

(** A vector that is not of length one passes [isUnit], and a vector whose
    length is below every tolerance of the library fails [isZero]. *)
Example tolerance_versus_exact :
  let almost := mkVec2 (S754_finite false 8388609 (-23)) r0 in
  let tiny := mkVec2 (S754_finite false 1 (-149)) r0 in
  Vec2.isUnit (P := Single) almost = true
  /\ Part000.eqb almost (mkVec2 (f32 1 1) r0) = false
  /\ Vec2.isZero tiny = false
  /\ (Vec2.length (P := Single) tiny <? Constants.Epsilon (P := Single)) = true.
Proof. vm_compute. repeat split. Qed.

(** C5.  The [Vec2]-only variant computes [isUnit] as
    [lengthSquared() - 1 < Epsilon], without the absolute value: the zero
    vector, whose squared length is at distance [1] from [1], is reported
    unit.  The two other headers answer [false]. *)
Theorem Part001_isUnit_zero_vector :
  forall P : Precision,
    let v := mkVec2 r0 r0 in
    Part001.isUnit v = true
    /\ (rfabs (Vec2.lengthSquared v - r1) <? Constants.Epsilon) = false
    /\ Vec2.isUnit v = false
    /\ Part000.isUnit v = false
    /\ Vec2.isZero v = true.
Proof. intros [|]; vm_compute; repeat split. Qed.

(** C7.  [==] on [Vec2] (as the two variants declare it) and on [Vec3]
    is true exactly when each pair of components is the same number, with no
    tolerance: the same float, NaN excluded, or two zeros; [!=] is its
    negation. *)
Theorem vector_equality_exact :
  (forall a o : Vec2_t,
      (Part000.eqb a o = true <-> real_eq (x2 a) (x2 o) /\ real_eq (y2 a) (y2 o))
      /\ Part001.eqb a o = Part000.eqb a o
      /\ Part000.neqb a o = negb (Part000.eqb a o)
      /\ Part001.neqb a o = negb (Part001.eqb a o))
  /\ (forall a o : Vec3_t,
      (Vec3.eqb a o = true
       <-> real_eq (x3 a) (x3 o) /\ real_eq (y3 a) (y3 o) /\ real_eq (z3 a) (z3 o))
      /\ Vec3.neqb a o = negb (Vec3.eqb a o)).
Proof.
  split; intros a o.
  - split; [|now repeat split].
    unfold Part000.eqb. rewrite andb_true_iff, !reqb_spec. tauto.
  - split; [|reflexivity].
    unfold Vec3.eqb. rewrite !andb_true_iff, !reqb_spec. tauto.
Qed.

(** Neighbouring floats are different vectors, zeros of either sign are the
    same, and a vector with a NaN component differs from itself. *)
Example equality_examples :
  let one_ulp_up := S754_finite false 8388609 (-23) in
  Part000.eqb (mkVec2 (f32 1 1) r0) (mkVec2 one_ulp_up r0) = false
  /\ Part000.eqb (mkVec2 (S754_zero true) r0) (mkVec2 r0 r0) = true
  /\ Part000.neqb (mkVec2 S754_nan r0) (mkVec2 S754_nan r0) = true
  /\ Vec3.eqb (mkVec3 (f32 1 1) (f32 2 1) (f32 3 1))
              (mkVec3 (f32 1 1) (f32 2 1) (f32 3 1)) = true.
Proof. vm_compute. repeat split. Qed.

(** ** Vec2 and Vec3: projection *)

(** The main header, the [Vec2]/[Vec3] variant and [Vec3]: the zero vector when
    the squared length of [onto] is below [Epsilon], else [onto] scaled by
    [(v . onto) / (onto . onto)]. *)
Lemma project_spec {P : Precision} :
  (forall v onto : Vec2_t,
      Vec2.project v onto
      = (if Vec2.lengthSquared onto <? Constants.Epsilon then mkVec2 r0 r0
         else Vec2.smul (Vec2.dot v onto / Vec2.dot onto onto) onto)
      /\ Part000.project v onto = Vec2.project v onto)
  /\ (forall v onto : Vec3_t,
      Vec3.project v onto
      = (if Vec3.lengthSquared onto <? Constants.Epsilon then mkVec3 r0 r0 r0
         else Vec3.smul (Vec3.dot v onto / Vec3.dot onto onto) onto)).
Proof. now split. Qed.

(** The [project] of the [Vec2]-only variant never reads [this]: it is the
    normalisation of its argument (in single precision, where the two
    headers have the same [Epsilon], the very function [normalize]). *)
Lemma Part001_project_normalize :
  (forall (P : Precision) (v w other : Vec2_t),
      Part001.project v other = Part001.project w other)
  /\ (forall v other : Vec2_t,
      Part001.project (P := Single) v other
      = Vec2.normalize (P := Single) other).
Proof. now split. Qed.

(** C2.  In the [Vec2]-only variant [Vec2(3, 4).project(Vec2(2, 0))] is
    [(1, 0)], the direction of [onto], where the projection is [(3, 0)], the
    value of the two other headers; and for [onto = (2^-10, 0)], whose
    squared length is below [Epsilon] but whose length is not, it returns
    [(1, 0)] where the other headers return the zero vector. *)
Theorem Part001_project_diverges :
  let v := mkVec2 (f32 3 1) (f32 4 1) in
  let onto := mkVec2 (f32 2 1) r0 in
  let short := mkVec2 (f32 1 1024) r0 in
  Part001.project (P := Single) v onto = mkVec2 (f32 1 1) r0
  /\ Vec2.project (P := Single) v onto = mkVec2 (f32 3 1) r0
  /\ Part000.project (P := Single) v onto = mkVec2 (f32 3 1) r0
  /\ (Vec2.lengthSquared (P := Single) short <? Constants.Epsilon (P := Single))
     = true
  /\ Vec2.project (P := Single) v short = mkVec2 r0 r0
  /\ Part001.project (P := Single) v short = mkVec2 (f32 1 1) r0.
Proof. vm_compute. repeat split. Qed.

(** ** Vec2 and Vec3: reflection about a degenerate normal *)

(** C10, as stated: with an infinite component in [v] the products
    [v.x * 0] of the dot product are NaN, and so is every component of the
    result. *)
Lemma reflect_infinite_component :
  let v := mkVec2 (S754_infinity false) r0 in
  let normal := mkVec2 r0 r0 in
  (Vec2.length (P := Single) normal <? Constants.Epsilon (P := Single)) = true
  /\ Vec2.reflect (P := Single) v normal = mkVec2 S754_nan S754_nan
  /\ Vec2.reflect (P := Single) v normal <> v.
Proof. vm_compute. repeat split. discriminate. Qed.

Lemma reflect_component {P : Precision} (x d : real) :
  is_finite x = true -> is_zero d = true ->
  (x - r0 * (r2 * d) ==? x) = true.
Proof.
  rewrite r2_eq.
  destruct x as [sx|sx| |sx mx ex], d as [sd|sd| |sd md ed]; try discriminate;
    intros _ _; cbn.
  - now destruct sx, sd.
  - exact (reqb_refl (S754_finite sx mx ex) eq_refl).
Qed.

Lemma rmul_zero_r {P : Precision} (x : real) :
  is_finite x = true -> is_zero (x * r0) = true.
Proof. now destruct x. Qed.

Lemma radd_zero_zero {P : Precision} (a b : real) :
  is_zero a = true -> is_zero b = true -> is_zero (a + b) = true.
Proof. destruct a as [[|]| | |], b as [[|]| | |]; now try discriminate. Qed.

(** C10 (amended).  When the length of [normal] is below [Epsilon] and the
    components of [v] are finite, [v.reflect(normal)] compares equal to [v],
    component by component (a zero component may come back with the other
    sign).  For both dimensions. *)
Theorem reflect_near_zero_normal :
  forall P : Precision,
    (forall v normal : Vec2_t,
        (Vec2.length normal <? Constants.Epsilon) = true ->
        is_finite (x2 v) = true -> is_finite (y2 v) = true ->
        let r := Vec2.reflect v normal in
        (x2 r ==? x2 v) = true /\ (y2 r ==? y2 v) = true)
    /\ (forall v normal : Vec3_t,
        (Vec3.length normal <? Constants.Epsilon) = true ->
        is_finite (x3 v) = true -> is_finite (y3 v) = true ->
        is_finite (z3 v) = true ->
        Vec3.eqb (Vec3.reflect v normal) v = true).
Proof.
  intros P; split.
  - intros [x y] normal Hn Hx Hy. cbn in Hx, Hy.
    unfold Vec2.reflect, Vec2.normalize. rewrite Hn.
    unfold Vec2.sub, Vec2.smul, Vec2.mul, Vec2.dot.
    cbn [x2 y2].
    assert (Hd : is_zero (x * r0 + y * r0) = true)
      by (apply radd_zero_zero; now apply rmul_zero_r).
    now rewrite !reflect_component.
  - intros [x y z] normal Hn Hx Hy Hz. cbn in Hx, Hy, Hz.
    unfold Vec3.reflect, Vec3.normalize. rewrite Hn.
    unfold Vec3.eqb, Vec3.sub, Vec3.smul, Vec3.mul, Vec3.dot.
    cbn [x3 y3 z3].
    assert (Hd : is_zero (x * r0 + y * r0 + z * r0) = true)
      by (repeat apply radd_zero_zero; now apply rmul_zero_r).
    now rewrite !reflect_component.
Qed.

Lemma reflect_near_zero_normal_witness :
  (let r := Vec2.reflect (P := Single) (mkVec2 (f32 1 1) (- f32 1 1))
                         (mkVec2 r0 r0) in
   (x2 r ==? f32 1 1) = true /\ (y2 r ==? - f32 1 1) = true)
  /\ Vec3.eqb (Vec3.reflect (P := Single) (mkVec3 (f32 1 1) (f32 1 1) (f32 1 1))
                            (mkVec3 r0 r0 (f32 1 10000000)))
              (mkVec3 (f32 1 1) (f32 1 1) (f32 1 1)) = true.
Proof.
  split.
  - apply (proj1 (reflect_near_zero_normal Single)
                   (mkVec2 (f32 1 1) (- f32 1 1)) (mkVec2 r0 r0)); reflexivity.
  - apply (proj2 (reflect_near_zero_normal Single)); reflexivity.
Defined.

(** Outside the finite vectors nothing of [v] is left: one infinite or NaN
    component makes the dot product with the zero vector NaN, and with it
    every component of the result. *)
Lemma reflect_near_zero_normal_nonfinite {P : Precision} (v normal : Vec2_t) :
  (Vec2.length normal <? Constants.Epsilon) = true ->
  is_finite (x2 v) && is_finite (y2 v) = false ->
  Vec2.reflect v normal = mkVec2 S754_nan S754_nan.
Proof.
  intros Hn Hv. unfold Vec2.reflect, Vec2.normalize. rewrite Hn.
  unfold Vec2.sub, Vec2.smul, Vec2.mul, Vec2.dot. cbn [x2 y2].
  rewrite r2_eq.
  destruct v as [[sx|sx| |sx mx ex] [sy|sy| |sy my ey]];
    try discriminate; try reflexivity.
Qed.

(** The sign of a zero: [(-0, -0)] comes back as [(+0, +0)]. *)
Example reflect_negative_zero :
  Vec2.reflect (P := Single) (mkVec2 (S754_zero true) (S754_zero true))
               (mkVec2 r0 r0)
  = mkVec2 (S754_zero false) (S754_zero false).
Proof. reflexivity. Qed.

(** ** Geometry2D *)

(** [Clamp(t, 0, 1)]: [0] below [0], [1] above [1], [t] in between; a NaN
    compares false both times and is returned as it is. *)
Lemma Clamp_unit_interval {P : Precision} (t : real) :
  let t' := MathTools.Clamp t (of_Z 0) (of_Z 1) in
  (if is_nan t then is_nan t' else rleb (of_Z 0) t' && rleb t' (of_Z 1)) = true.
Proof.
  cbn zeta. unfold MathTools.Clamp.
  destruct (is_nan t) eqn:Hnan.
  - destruct t; try discriminate. now destruct P.
  - assert (H1 : is_nan (of_Z 1) = false) by now destruct P.
    assert (H01 : rleb (of_Z 0) (of_Z 1) = true) by now destruct P.
    destruct (t <? of_Z 0) eqn:Hlo.
    + now rewrite H01.
    + unfold rgtb. fold (of_Z 1 <? t).
      destruct (of_Z 1 <? t) eqn:Hhi.
      * rewrite H01. now destruct P.
      * rewrite (rltb_false_rleb t (of_Z 0)), (rltb_false_rleb (of_Z 1) t);
          auto.
Qed.

(** C4.  [ClosestPointOnLineSegment(a, b, p)] computes
    [t = ((p-a) . (b-a)) / |b-a|^2], passes it through [Clamp(t, 0, 1)] and
    returns [a + t*(b-a)]; the clamped parameter is [0] when [t < 0], [1] when
    [t > 1] and [t] otherwise, so it lies in [[0, 1]] for every [t] that is a
    number.  On [(0,0)], [(2,0)], [(3, 0.5)] the parameter [1.5] is clamped
    to [1] and the result is the end point [(2, 0)]. *)
Theorem ClosestPointOnLineSegment_clamped :
  (forall (P : Precision) (a b p : Vec2_t),
      let ab := Vec2.sub b a in
      let t := Vec2.dot (Vec2.sub p a) ab / Vec2.lengthSquared ab in
      let t' := if t <? of_Z 0 then of_Z 0
                else if t >? of_Z 1 then of_Z 1 else t in
      Geometry2D.ClosestPointOnLineSegment a b p = Vec2.add a (Vec2.smul t' ab)
      /\ (if is_nan t then is_nan t'
          else rleb (of_Z 0) t' && rleb t' (of_Z 1)) = true)
  /\ (let a := mkVec2 r0 r0 in
      let b := mkVec2 (f32 2 1) r0 in
      let p := mkVec2 (f32 3 1) (f32 5 10) in
      rdiv (P := Single)
           (Vec2.dot (P := Single) (Vec2.sub (P := Single) p a)
                     (Vec2.sub (P := Single) b a))
           (Vec2.lengthSquared (P := Single) (Vec2.sub (P := Single) b a))
      = f32 15 10
      /\ Geometry2D.ClosestPointOnLineSegment (P := Single) a b p
         = mkVec2 (f32 2 1) r0).
Proof.
  split.
  - intros P a b p ab t t'. split; [reflexivity|].
    exact (Clamp_unit_interval t).
  - vm_compute. now split.
Qed.

(** The coincident end points of the specification's open question: the
    parameter is [0/0], NaN, the clamp returns it and the result has NaN
    components. *)
Example ClosestPointOnLineSegment_degenerate :
  let a := mkVec2 (f32 1 1) (f32 2 1) in
  Geometry2D.ClosestPointOnLineSegment (P := Single) a a (mkVec2 (f32 3 1) r0)
  = mkVec2 S754_nan S754_nan.
Proof. reflexivity. Qed.

(** ** Mat2 *)

(** C9.  The rotation matrix applied to a vector is the vector's own
    [rotate]: the two computations return the same pair of scalars, whatever
    the math library returns for the cosine and the sine. *)
Theorem Rotation_apply_is_rotate :
  forall (P : Precision) (M : Libm) (v : Vec2_t) (radians : real),
    Mat2.apply (Mat2.Rotation radians) v = Vec2.rotate v radians.
Proof.
  intros P M [x y] radians.
  unfold Mat2.apply, Mat2.Rotation, Vec2.rotate. cbn [x2 y2 m00 m01 m10 m11].
  f_equal.
  - rewrite rsub_add_neg, rmul_neg_l.
    now rewrite (rmul_comm (cos radians) x), (rmul_comm (sin radians) y).
  - now rewrite (rmul_comm (sin radians) x), (rmul_comm (cos radians) y).
Qed.

(** C8.  [Rotation(radians)] is the matrix of rows [[cos, -sin]] and
    [[sin, cos]] of the angle.  For any tolerance and any angle, [HALF_PI]
    in particular, at which the library's cosine and sine are scalars of the
    format within the tolerance of [0] and [1], the image of [(1, 0)] is
    within the tolerance of [(0, 1)]. *)
Theorem Rotation_rows :
  forall (P : Precision) (M : Libm) (tol : real),
    (forall radians : real,
        Mat2.Rotation radians
        = mkMat2 (cos radians) (- sin radians) (sin radians) (cos radians))
    /\ (forall radians : real,
        let c := cos radians in
        let s := sin radians in
        valid c = true -> valid s = true ->
        (rfabs (c - r0) <? tol) = true -> (rfabs (s - r1) <? tol) = true ->
        let v := Mat2.apply (Mat2.Rotation radians) (mkVec2 r1 r0) in
        (rfabs (x2 v - r0) <? tol) = true /\ (rfabs (y2 v - r1) <? tol) = true).
Proof.
  intros P M tol. split; [reflexivity|].
  intros radians c s Vc Vs Hc Hs v. subst v.
  unfold Mat2.apply, Mat2.Rotation. cbn [x2 y2 m00 m01 m10 m11].
  fold c s. rewrite !rmul_1_r by assumption.
  clearbody c s. rewrite r1_eq in *.
  destruct c as [sc|sc| |sc mc ec], s as [ss|ss| |ss ms es]; cbn in Hc, Hs;
    try discriminate;
    try (rewrite rltb_inf_l in Hc; discriminate);
    try (rewrite rltb_inf_l in Hs; discriminate).
  all: cbn; split; try assumption.
  all: try (destruct sc, ss; cbn; assumption).
Qed.

Lemma Rotation_rows_witness :
  let v := Mat2.apply (P := Single)
             (Mat2.Rotation (M := libm_half_pi) (Constants.HALF_PI (P := Single)))
             (mkVec2 (f32 1 1) r0) in
  (rfabs (rsub (P := Single) (x2 v) r0) <? Constants.Epsilon (P := Single)) = true
  /\ (rfabs (rsub (P := Single) (y2 v) (f32 1 1)) <? Constants.Epsilon (P := Single))
     = true.
Proof.
  apply (proj2 (Rotation_rows Single libm_half_pi
                  (Constants.Epsilon (P := Single)))
               (Constants.HALF_PI (P := Single)));
    reflexivity.
Defined.

(** With the tabulated library the image of [(1, 0)] is
    [(-4.3711388e-08f, 1)]. *)
Example Rotation_half_pi :
  Mat2.apply (P := Single)
    (Mat2.Rotation (M := libm_half_pi) (Constants.HALF_PI (P := Single)))
    (mkVec2 (f32 1 1) r0)
  = mkVec2 (S754_finite true 12303662 (-48)) (f32 1 1).
Proof. reflexivity. Qed.

(** * Further properties of the header *)

(** ** More facts about the scalar operations *)

Section ScalarAlgebra.
Context {P : Precision}.

Lemma radd_comm (a b : real) : a + b = b + a.
Proof.
  destruct a as [sa|sa| |sa ma ea], b as [sb|sb| |sb mb eb]; cbn;
    try reflexivity; try (now destruct sa, sb).
  now rewrite (Z.min_comm ea eb), Z.add_comm.
Qed.

Lemma rmul_neg_r (a b : real) : a * (- b) = - (a * b).
Proof. now rewrite rmul_comm, rmul_neg_l, rmul_comm. Qed.

Lemma rneg_involutive (a : real) : - (- a) = a.
Proof. destruct a as [s|s| |s m e]; cbn; now rewrite ?negb_involutive. Qed.

Lemma rmul_neg_neg (a b : real) : (- a) * (- b) = a * b.
Proof. now rewrite rmul_neg_l, rmul_neg_r, rneg_involutive. Qed.

Lemma rmul_1_l (a : real) : valid a = true -> r1 * a = a.
Proof. intros V. now rewrite rmul_comm, rmul_1_r. Qed.

Lemma rsub_diag (a : real) : is_finite a = true -> a - a = S754_zero false.
Proof.
  destruct a as [s|s| |s m e]; try discriminate; intros _; cbn.
  - now destruct s.
  - now rewrite Z.sub_diag.
Qed.

Lemma radd_neg_l (a : real) : is_finite a = true -> (- a) + a = S754_zero false.
Proof.
  intros F. rewrite radd_comm, <- rsub_add_neg. now apply rsub_diag.
Qed.

Lemma binary_normalize_opp (m e : Z) :
  m <> 0%Z ->
  binary_normalize (prec P) (emax P) (- m) e false
  = SFopp (binary_normalize (prec P) (emax P) m e false).
Proof.
  destruct m as [|m|m]; [easy| |]; intros _; cbn;
    unfold binary_round;
    destruct (shl_align _ _ _) as [mz ez];
    now rewrite binary_round_aux_opp.
Qed.

Lemma rsub_swap (a b : real) : opposite (a - b) (b - a).
Proof.
  unfold opposite.
  destruct a as [sa|sa| |sa ma ea], b as [sb|sb| |sb mb eb]; cbn;
    try (now left); try (destruct sa, sb; cbn; tauto).
  rewrite (Z.min_comm eb ea).
  set (A := cond_Zopp sa _). set (B := cond_Zopp sb _).
  destruct (Z.eq_dec (A - B) 0) as [E|E].
  - right. replace (B - A)%Z with 0%Z by lia. now rewrite E.
  - left. replace (A - B)%Z with (- (B - A))%Z by lia.
    apply binary_normalize_opp. lia.
Qed.

Lemma opposite_square (a b : real) : opposite a b -> a * a = b * b.
Proof. intros [-> | [-> ->]]; [apply rmul_neg_neg|reflexivity]. Qed.

(** *** Signs *)

Lemma nonneg_not_lt_0 (a : real) : nonneg a = true <-> (a <? r0) = false.
Proof. now destruct a as [s|[|]| |[|] m e]. Qed.

Lemma binary_round_aux_nonneg (m e : Z) (l : location) :
  nonneg (binary_round_aux (prec P) (emax P) false m e l) = true.
Proof.
  unfold binary_round_aux.
  destruct (shr_fexp (prec P) (emax P) m e l) as [mrs' e'].
  destruct (shr_fexp (prec P) (emax P) _ e' loc_Exact) as [mrs'' e''].
  destruct (shr_m mrs'') as [|q|q]; cbn; try reflexivity.
  now destruct (Z.leb e'' _).
Qed.

Lemma rmul_self_nonneg (a : real) : nonneg (a * a) = true.
Proof.
  destruct a as [s|s| |s m e]; cbn; try reflexivity;
    rewrite ?xorb_nilpotent; try reflexivity.
  apply binary_round_aux_nonneg.
Qed.

Lemma radd_nonneg (a b : real) :
  nonneg a = true -> nonneg b = true -> nonneg (a + b) = true.
Proof.
  destruct a as [sa|sa| |sa ma ea], b as [sb|sb| |sb mb eb]; cbn;
    try reflexivity; try (now destruct sa, sb); try (now destruct sa);
    try (now destruct sb).
  destruct sa, sb; try discriminate. intros _ _. cbn.
  unfold binary_round.
  destruct (shl_align _ _ _) as [mz ez]. apply binary_round_aux_nonneg.
Qed.

Lemma rsqrt_nonneg (a : real) : nonneg (rsqrt a) = true.
Proof.
  destruct a as [s|[|]| |[|] m e]; cbn; try reflexivity.
  unfold rsqrt, SFsqrt.
  destruct (SFsqrt_core_binary _ _ _ _) as [[mz ez] lz].
  apply binary_round_aux_nonneg.
Qed.

(** *** Zeros *)

Lemma rmul_zero_any (a z : real) :
  is_zero z = true -> zero_or_nan (a * z) = true.
Proof. destruct z; try discriminate. now destruct a. Qed.

Lemma rmul_zero_finite (a z : real) :
  is_zero z = true -> is_finite a = true -> is_zero (a * z) = true.
Proof. destruct z, a; now try discriminate. Qed.

Lemma rmul_finite_zero (a z : real) :
  is_zero z = true -> is_finite a = true -> is_zero (z * a) = true.
Proof. destruct z, a; now try discriminate. Qed.

Lemma radd_zero_or_nan (a b : real) :
  zero_or_nan a = true -> zero_or_nan b = true -> zero_or_nan (a + b) = true.
Proof. destruct a as [[|]| | |], b as [[|]| | |]; now try discriminate. Qed.

Lemma rdiv_zero_or_nan_zero (a z : real) :
  zero_or_nan a = true -> is_zero z = true -> a / z = S754_nan.
Proof. destruct a, z; now try discriminate. Qed.

Lemma radd_zero_r_eq (a z : real) :
  is_zero z = true -> is_nan a = false -> (a + z ==? a) = true.
Proof.
  destruct z as [sz| | |]; try discriminate. intros _.
  destruct a as [sa|sa| |sa ma ea]; try discriminate; intros _.
  - now destruct sa, sz.
  - now destruct sa.
  - exact (reqb_refl (S754_finite sa ma ea) eq_refl).
Qed.

Lemma radd_zero_l_eq (a z : real) :
  is_zero z = true -> is_nan a = false -> (z + a ==? a) = true.
Proof. intros. rewrite radd_comm. now apply radd_zero_r_eq. Qed.

Lemma radd_zero_r_finite (a z : real) :
  is_zero z = true -> is_finite a = true -> is_finite (a + z) = true.
Proof. destruct z as [sz| | |], a as [[|]| | |]; try discriminate; now destruct sz. Qed.

Lemma rdiv_by_zero (a z : real) : is_zero z = true -> is_finite (a / z) = false.
Proof. destruct z; try discriminate. now destruct a. Qed.

Lemma rdiv_zero_l (z d : real) :
  is_zero z = true -> is_nan d = false -> is_zero d = false ->
  is_zero (z / d) = true.
Proof. destruct z, d; now try discriminate. Qed.

Lemma rdiv_finite_inf (a : real) :
  is_finite a = true -> is_zero (a / S754_infinity false) = true.
Proof. now destruct a. Qed.

Lemma is_finite_not_nan (a : real) : is_finite a = true -> is_nan a = false.
Proof. now destruct a. Qed.

(** *** Order *)

Lemma rleb_refl (a : real) : is_nan a = false -> rleb a a = true.
Proof.
  intros H. apply reqb_refl in H. unfold reqb, SFeqb in H. unfold rleb, SFleb.
  now destruct (SFcompare a a) as [[| |]|].
Qed.

Lemma rltb_irrefl (a : real) : (a <? a) = false.
Proof.
  destruct (is_nan a) eqn:N; [now destruct a|].
  apply reqb_refl in N. unfold reqb, SFeqb in N. unfold rltb, SFltb.
  now destruct (SFcompare a a) as [[| |]|].
Qed.

Lemma rleb_not_gt (a b : real) : rleb a b = true -> (b <? a) = false.
Proof.
  unfold rleb, rltb, SFleb, SFltb. rewrite (SFcompare_antisym a b).
  now destruct (SFcompare a b) as [[| |]|].
Qed.

Lemma rleb_not_nan (a b : real) :
  rleb a b = true -> is_nan a = false /\ is_nan b = false.
Proof. destruct a, b; now try discriminate. Qed.
End ScalarAlgebra.

(** ** MathTools *)

(** X1.  With bounds in order, [Clamp] returns a value between them for
    every value that is a number, and clamping twice changes nothing; a NaN
    value is returned as it is, whatever the bounds. *)
Theorem Clamp_between :
  forall (P : Precision) (value lo hi : real),
    (rleb lo hi = true ->
     (is_nan value = false ->
      rleb lo (MathTools.Clamp value lo hi)
      && rleb (MathTools.Clamp value lo hi) hi = true)
     /\ MathTools.Clamp (MathTools.Clamp value lo hi) lo hi
        = MathTools.Clamp value lo hi)
    /\ MathTools.Clamp S754_nan lo hi = S754_nan.
Proof.
  intros P value lo hi. split; [|now destruct lo, hi].
  intros Hle.
  destruct (rleb_not_nan lo hi Hle) as [Nlo Nhi].
  pose proof (rleb_not_gt lo hi Hle) as Hgt.
  unfold MathTools.Clamp, rgtb.
  change (SFltb hi) with (rltb hi). split.
  - intros Nv. destruct (value <? lo) eqn:E1; cbv iota.
    + apply andb_true_intro; split; [now apply rleb_refl|]. assumption.
    + destruct (hi <? value) eqn:E2; cbv iota.
      * apply andb_true_intro; split; [assumption|now apply rleb_refl].
      * apply andb_true_intro; split; now apply rltb_false_rleb.
  - destruct (value <? lo) eqn:E1; cbv iota.
    + now rewrite rltb_irrefl, Hgt.
    + destruct (hi <? value) eqn:E2; cbv iota.
      * now rewrite Hgt, rltb_irrefl.
      * now rewrite E1, E2.
Qed.

Lemma Clamp_between_witness :
  rleb (f32 0 1) (MathTools.Clamp (f32 5 1) (f32 0 1) (f32 3 1))
  && rleb (MathTools.Clamp (f32 5 1) (f32 0 1) (f32 3 1)) (f32 3 1) = true.
Proof.
  apply (proj1 (proj1 (Clamp_between Single (f32 5 1) (f32 0 1) (f32 3 1))
                  eq_refl)).
  reflexivity.
Defined.

(** X2.  [Lerp] at [t = 0] returns [a] (up to the sign of a zero) when the
    difference [b - a] is finite, and at [t = 1] it returns [a + (b - a)],
    which need not be [b]: from [2^25] to [1] in single precision it is
    [0]. *)
Theorem Lerp_end_points :
  (forall (P : Precision) (a b t : real),
      (is_zero t = true -> is_nan a = false -> is_finite (b - a) = true ->
       (MathTools.Lerp a b t ==? a) = true)
      /\ (valid (b - a) = true -> MathTools.Lerp a b r1 = a + (b - a)))
  /\ MathTools.Lerp (P := Single) (f32 33554432 1) (f32 1 1) (f32 1 1)
     = S754_zero false.
Proof.
  split; [|reflexivity].
  intros P a b t. unfold MathTools.Lerp. split.
  - intros Ht Na Fd. apply radd_zero_r_eq; [|assumption].
    now apply rmul_finite_zero.
  - intros V. now rewrite rmul_1_l.
Qed.

Lemma Lerp_end_points_witness :
  (MathTools.Lerp (P := Single) (f32 0 1) (f32 10 1) (f32 0 1) ==? f32 0 1) = true
  /\ MathTools.Lerp (P := Single) (f32 0 1) (f32 10 1) (r1 (P := Single))
     = radd (P := Single) (f32 0 1) (rsub (P := Single) (f32 10 1) (f32 0 1)).
Proof.
  split.
  - apply (proj1 (proj1 Lerp_end_points Single (f32 0 1) (f32 10 1) (f32 0 1)));
      reflexivity.
  - apply (proj2 (proj1 Lerp_end_points Single (f32 0 1) (f32 10 1) (f32 0 1)));
      reflexivity.
Defined.

(** X3.  The angle conversions are odd functions and send zero to zero.  In
    both builds [ToRadians(180)] is exactly [PI] and [ToDegrees(PI)] exactly
    [180]; the round trip is not the identity: in single precision
    [ToDegrees(ToRadians(1))] is [0.99999994f]. *)
Theorem angle_conversions :
  (forall (P : Precision) (a : real),
      MathTools.ToRadians (- a) = - MathTools.ToRadians a
      /\ MathTools.ToDegrees (- a) = - MathTools.ToDegrees a
      /\ (is_zero a = true ->
          is_zero (MathTools.ToRadians a) = true
          /\ is_zero (MathTools.ToDegrees a) = true))
  /\ (forall P : Precision,
      MathTools.ToRadians (of_Z 180) = Constants.PI
      /\ MathTools.ToDegrees Constants.PI = of_Z 180)
  /\ MathTools.ToDegrees (P := Single) (MathTools.ToRadians (P := Single) (f32 1 1))
     = S754_finite false 16777215 (-24).
Proof.
  split; [|split; [intros [|]; now vm_compute|reflexivity]].
  intros P a. unfold MathTools.ToRadians, MathTools.ToDegrees.
  rewrite !rmul_neg_l. repeat split.
  - apply rmul_finite_zero; [assumption|now destruct P].
  - apply rmul_finite_zero; [assumption|now destruct P].
Qed.

Lemma angle_conversions_witness :
  is_zero (MathTools.ToRadians (P := Single) r0) = true
  /\ is_zero (MathTools.ToDegrees (P := Single) r0) = true.
Proof.
  apply (proj2 (proj2 (proj1 angle_conversions Single r0))). reflexivity.
Defined.

(** ** Vec2 and Vec3: algebra *)

(** X4.  Vector addition commutes, and subtraction is the addition of the
    negated vector, exactly and for all components, NaN and infinities
    included; a finite vector minus itself is the vector of [+0]. *)
Theorem vector_add_sub :
  forall P : Precision,
    (forall a o : Vec2_t,
        Vec2.add a o = Vec2.add o a
        /\ Vec2.sub a o = Vec2.add a (Vec2.neg o)
        /\ (finite2 a = true -> Vec2.sub a a = mkVec2 r0 r0))
    /\ (forall a o : Vec3_t,
        Vec3.add a o = Vec3.add o a
        /\ Vec3.sub a o = Vec3.add a (Vec3.neg o)
        /\ (finite3 a = true -> Vec3.sub a a = mkVec3 r0 r0 r0)).
Proof.
  intros P; split; intros a o; repeat split.
  - unfold Vec2.add. now rewrite (radd_comm (x2 a)), (radd_comm (y2 a)).
  - unfold Vec2.sub, Vec2.add, Vec2.neg; cbn [x2 y2].
    now rewrite !rsub_add_neg.
  - unfold finite2, Vec2.sub. intros F.
    apply andb_prop in F as [Fx Fy]. now rewrite !rsub_diag.
  - unfold Vec3.add.
    now rewrite (radd_comm (x3 a)), (radd_comm (y3 a)), (radd_comm (z3 a)).
  - unfold Vec3.sub, Vec3.add, Vec3.neg; cbn [x3 y3 z3].
    now rewrite !rsub_add_neg.
  - unfold finite3, Vec3.sub. intros F.
    apply andb_prop in F as [F Fz]. apply andb_prop in F as [Fx Fy].
    now rewrite !rsub_diag.
Qed.

Lemma vector_add_sub_witness :
  Vec2.sub (P := Single) (mkVec2 (f32 3 1) (f32 4 1)) (mkVec2 (f32 3 1) (f32 4 1))
  = mkVec2 r0 r0
  /\ Vec3.sub (P := Single) (mkVec3 (f32 1 1) (f32 2 1) (f32 3 1))
              (mkVec3 (f32 1 1) (f32 2 1) (f32 3 1))
     = mkVec3 r0 r0 r0.
Proof.
  split.
  - apply (proj1 (vector_add_sub Single) (mkVec2 (f32 3 1) (f32 4 1))
             (mkVec2 r0 r0)). reflexivity.
  - apply (proj2 (vector_add_sub Single) (mkVec3 (f32 1 1) (f32 2 1) (f32 3 1))
             (mkVec3 r0 r0 r0)). reflexivity.
Defined.

(** X5.  Scaling: for a vector of scalars of the format, [v * 1] is [v],
    [v * (-1)] is [-v], and [v * 0.5f] is [v / 2]; the two orders
    [scalar * v] and [v * scalar] are the same function. *)
Theorem vector_scaling :
  forall (P : Precision) (v : Vec2_t) (s : real),
    Vec2.smul s v = Vec2.mul v s
    /\ (valid (x2 v) = true -> valid (y2 v) = true ->
        Vec2.mul v r1 = v
        /\ Vec2.mul v (- r1) = Vec2.neg v
        /\ Vec2.mul v rhalf = Vec2.div v r2).
Proof.
  intros P [x y] s. split; [reflexivity|]. cbn [x2 y2]. intros Vx Vy.
  unfold Vec2.mul, Vec2.neg, Vec2.div; cbn [x2 y2].
  now rewrite !rmul_neg_r, !rmul_1_r, !rmul_half_rdiv_two.
Qed.

Lemma vector_scaling_witness :
  let v := mkVec2 (f32 3 1) (f32 4 1) in
  Vec2.mul (P := Single) v (r1 (P := Single)) = v
  /\ Vec2.mul (P := Single) v (- r1 (P := Single)) = Vec2.neg v
  /\ Vec2.mul (P := Single) v (rhalf (P := Single))
     = Vec2.div (P := Single) v (r2 (P := Single)).
Proof.
  apply (proj2 (vector_scaling Single (mkVec2 (f32 3 1) (f32 4 1)) r0));
    reflexivity.
Defined.

(** X6.  Division by a zero scalar is not guarded: no component of [v / 0]
    is a finite number, whatever [v] is, in place as by value. *)
Theorem vector_div_by_zero :
  forall (P : Precision) (z : real),
    is_zero z = true ->
    (forall v : Vec2_t,
        finite2 (Vec2.div v z) = false
        /\ is_finite (x2 (Vec2.div v z)) = false
        /\ is_finite (y2 (Vec2.div v z)) = false
        /\ Vec2.div_assign v z = Vec2.div v z)
    /\ (forall v : Vec3_t,
        is_finite (x3 (Vec3.div v z)) = false
        /\ is_finite (y3 (Vec3.div v z)) = false
        /\ is_finite (z3 (Vec3.div v z)) = false).
Proof.
  intros P z Hz. split; intros v.
  - unfold finite2, Vec2.div; cbn [x2 y2].
    rewrite !(rdiv_by_zero _ z Hz). now repeat split.
  - unfold Vec3.div; cbn [x3 y3 z3].
    rewrite !(rdiv_by_zero _ z Hz). now repeat split.
Qed.

Lemma vector_div_by_zero_witness :
  Vec2.div (P := Single) (mkVec2 (f32 1 1) r0) r0
  = mkVec2 (S754_infinity false) S754_nan
  /\ finite2 (Vec2.div (P := Single) (mkVec2 (f32 1 1) r0) r0) = false.
Proof.
  split; [reflexivity|].
  apply (proj1 (vector_div_by_zero Single r0 eq_refl) (mkVec2 (f32 1 1) r0)).
Defined.

(** X7.  The dot product is symmetric, exactly, in both dimensions. *)
Theorem dot_symmetric :
  forall P : Precision,
    (forall a o : Vec2_t, Vec2.dot a o = Vec2.dot o a)
    /\ (forall a o : Vec3_t, Vec3.dot a o = Vec3.dot o a).
Proof.
  intros P; split; intros a o.
  - unfold Vec2.dot.
    now rewrite (rmul_comm (x2 a)), (rmul_comm (y2 a)).
  - unfold Vec3.dot.
    now rewrite (rmul_comm (x3 a)), (rmul_comm (y3 a)), (rmul_comm (z3 a)).
Qed.

(** X8.  The cross product is antisymmetric: each component of [a x o] is the
    opposite of the one of [o x a], or both are [+0]; the cross product of a
    vector with itself is [+0] in every component whose products are
    finite.  For the scalar cross product of [Vec2] and the vector one of
    [Vec3]. *)
Theorem cross_antisymmetric :
  forall P : Precision,
    (forall a o : Vec2_t,
        opposite (Vec2.cross a o) (Vec2.cross o a)
        /\ (is_finite (x2 a * y2 a) = true -> Vec2.cross a a = r0))
    /\ (forall a o : Vec3_t,
        opposite (x3 (Vec3.cross a o)) (x3 (Vec3.cross o a))
        /\ opposite (y3 (Vec3.cross a o)) (y3 (Vec3.cross o a))
        /\ opposite (z3 (Vec3.cross a o)) (z3 (Vec3.cross o a))
        /\ (is_finite (y3 a * z3 a) = true -> is_finite (z3 a * x3 a) = true ->
            is_finite (x3 a * y3 a) = true ->
            Vec3.cross a a = mkVec3 r0 r0 r0)).
Proof.
  intros P; split; intros a o.
  - unfold Vec2.cross. split.
    + rewrite (rmul_comm (x2 o)), (rmul_comm (y2 o)). apply rsub_swap.
    + intros F. rewrite (rmul_comm (y2 a)). now apply rsub_diag.
  - unfold Vec3.cross; cbn [x3 y3 z3]. repeat split.
    + rewrite (rmul_comm (y3 o)), (rmul_comm (z3 o)). apply rsub_swap.
    + rewrite (rmul_comm (z3 o)), (rmul_comm (x3 o)). apply rsub_swap.
    + rewrite (rmul_comm (x3 o)), (rmul_comm (y3 o)). apply rsub_swap.
    + intros F1 F2 F3.
      rewrite (rmul_comm (z3 a) (y3 a)), (rmul_comm (x3 a) (z3 a)),
        (rmul_comm (y3 a) (x3 a)).
      now rewrite !rsub_diag.
Qed.

Lemma cross_antisymmetric_witness :
  Vec2.cross (P := Single) (mkVec2 (f32 2 1) (f32 1 1)) (mkVec2 (f32 2 1) (f32 1 1))
  = r0
  /\ Vec3.cross (P := Single) (mkVec3 (f32 1 1) (f32 2 1) (f32 3 1))
                (mkVec3 (f32 1 1) (f32 2 1) (f32 3 1))
     = mkVec3 r0 r0 r0.
Proof.
  split.
  - apply (proj2 (proj1 (cross_antisymmetric Single)
                    (mkVec2 (f32 2 1) (f32 1 1)) (mkVec2 r0 r0))).
    reflexivity.
  - apply (proj2 (proj2 (proj2 (proj2 (cross_antisymmetric Single)
                    (mkVec3 (f32 1 1) (f32 2 1) (f32 3 1)) (mkVec3 r0 r0 r0)))));
      reflexivity.
Defined.

(** The cross product of the test program. *)
Example cross_example :
  Vec3.cross (P := Single) (mkVec3 (f32 1 1) (f32 2 1) (f32 3 1))
             (mkVec3 (f32 4 1) (f32 5 1) (f32 6 1))
  = mkVec3 (- f32 3 1) (f32 6 1) (- f32 3 1).
Proof. reflexivity. Qed.

(** X9.  [perpendicular] is a quarter turn: applied twice it negates the
    vector and four times it gives the vector back; it keeps the squared
    length and the length exactly; and [v . perpendicular(v)] is exactly
    [+0] whenever the product [x * y] is finite. *)
Theorem perpendicular_quarter_turn :
  forall (P : Precision) (v : Vec2_t),
    Vec2.perpendicular (Vec2.perpendicular v) = Vec2.neg v
    /\ Vec2.perpendicular (Vec2.perpendicular
         (Vec2.perpendicular (Vec2.perpendicular v))) = v
    /\ Vec2.lengthSquared (Vec2.perpendicular v) = Vec2.lengthSquared v
    /\ Vec2.length (Vec2.perpendicular v) = Vec2.length v
    /\ (is_finite (x2 v * y2 v) = true ->
        Vec2.dot v (Vec2.perpendicular v) = r0).
Proof.
  intros P [x y].
  unfold Vec2.perpendicular, Vec2.neg, Vec2.lengthSquared, Vec2.length,
    Vec2.dot; cbn [x2 y2].
  rewrite !rneg_involutive, !rmul_neg_neg, (radd_comm (y * y)).
  repeat split.
  intros F. rewrite rmul_neg_r, (rmul_comm y x). now apply radd_neg_l.
Qed.

Lemma perpendicular_quarter_turn_witness :
  Vec2.dot (P := Single) (mkVec2 (f32 3 1) (f32 4 1))
           (Vec2.perpendicular (mkVec2 (f32 3 1) (f32 4 1))) = r0.
Proof.
  apply (proj2 (proj2 (proj2 (proj2
           (perpendicular_quarter_turn Single (mkVec2 (f32 3 1) (f32 4 1))))))).
  reflexivity.
Defined.

(** X10.  Lengths and distances are never negative: [length],
    [lengthSquared] (both dimensions), [Distance] and [DistanceSquared]
    never compare below zero, whatever the components. *)
Theorem lengths_never_negative :
  forall P : Precision,
    (forall v : Vec2_t,
        (Vec2.lengthSquared v <? r0) = false /\ (Vec2.length v <? r0) = false)
    /\ (forall v : Vec3_t,
        (Vec3.lengthSquared v <? r0) = false /\ (Vec3.length v <? r0) = false)
    /\ (forall a b : Vec2_t,
        (Geometry2D.DistanceSquared a b <? r0) = false
        /\ (Geometry2D.Distance a b <? r0) = false).
Proof.
  intros P.
  assert (H2 : forall v : Vec2_t,
             (Vec2.lengthSquared v <? r0) = false
             /\ (Vec2.length v <? r0) = false).
  { intros v. split; apply nonneg_not_lt_0.
    - apply radd_nonneg; apply rmul_self_nonneg.
    - apply rsqrt_nonneg. }
  split; [exact H2|]. split.
  - intros v. split; apply nonneg_not_lt_0.
    + repeat apply radd_nonneg; apply rmul_self_nonneg.
    + apply rsqrt_nonneg.
  - intros a b. apply H2.
Qed.

(** X11.  Distances are symmetric, exactly: [Distance(a, b) = Distance(b, a)]
    and the same for [DistanceSquared]; and the length of a vector is the
    square root of its squared length. *)
Theorem Distance_symmetric :
  forall (P : Precision) (a b : Vec2_t),
    Geometry2D.DistanceSquared a b = Geometry2D.DistanceSquared b a
    /\ Geometry2D.Distance a b = Geometry2D.Distance b a
    /\ Geometry2D.Distance a b = rsqrt (Geometry2D.DistanceSquared a b).
Proof.
  intros P a b.
  unfold Geometry2D.DistanceSquared, Geometry2D.Distance, Vec2.length,
    Vec2.lengthSquared, Vec2.sub; cbn [x2 y2].
  rewrite (opposite_square _ _ (rsub_swap (x2 a) (x2 b))),
    (opposite_square _ _ (rsub_swap (y2 a) (y2 b))).
  repeat split.
Qed.

(** ** Vec2 and Vec3: normalisation, predicates *)

(** X12.  When the squared length of a finite vector overflows to infinity,
    its length is infinite and [normalize] returns a vector of zeros, not a
    unit vector; [normalizeSelf] leaves the same zeros.  In both
    dimensions. *)
Theorem normalize_overflow :
  forall P : Precision,
    (forall v : Vec2_t,
        finite2 v = true ->
        Vec2.lengthSquared v = S754_infinity false ->
        Vec2.isZero (Vec2.normalize v) = true
        /\ Vec2.isZero (Vec2.normalizeSelf v) = true
        /\ Vec2.isUnit (Vec2.normalize v) = false)
    /\ (forall v : Vec3_t,
        finite3 v = true ->
        Vec3.lengthSquared v = S754_infinity false ->
        Vec3.isZero (Vec3.normalize v) = true
        /\ Vec3.isZero (Vec3.normalizeSelf v) = true
        /\ Vec3.isUnit (Vec3.normalize v) = false).
Proof.
  intros P. split.
  - intros [x y] F H. unfold finite2 in F; cbn [x2 y2] in F.
    apply andb_prop in F as [Fx Fy].
    assert (E : Vec2.normalizeSelf (mkVec2 x y) = Vec2.normalize (mkVec2 x y))
      by (unfold Vec2.normalizeSelf, Vec2.normalize, Vec2.set_x, Vec2.set_y;
          now destruct (Vec2.length (mkVec2 x y) <? Constants.Epsilon)).
    rewrite E. unfold Vec2.normalize, Vec2.length.
    unfold Vec2.lengthSquared in H. rewrite H.
    change (rsqrt (S754_infinity false)) with (S754_infinity false).
    rewrite rltb_inf_l. cbn [x2 y2].
    destruct x as [sx|sx| |sx mx ex], y as [sy|sy| |sy my ey];
      try discriminate; destruct P; now destruct sx, sy.
  - intros [x y z] F H. unfold finite3 in F; cbn [x3 y3 z3] in F.
    apply andb_prop in F as [F Fz]. apply andb_prop in F as [Fx Fy].
    assert (E : Vec3.normalizeSelf (mkVec3 x y z) = Vec3.normalize (mkVec3 x y z))
      by (unfold Vec3.normalizeSelf, Vec3.normalize, Vec3.set_x, Vec3.set_y,
            Vec3.set_z;
          now destruct (Vec3.length (mkVec3 x y z) <? Constants.Epsilon)).
    rewrite E. unfold Vec3.normalize, Vec3.length.
    unfold Vec3.lengthSquared in H. rewrite H.
    change (rsqrt (S754_infinity false)) with (S754_infinity false).
    rewrite rltb_inf_l. cbn [x3 y3 z3].
    destruct x as [sx|sx| |sx mx ex], y as [sy|sy| |sy my ey],
             z as [sz|sz| |sz mz ez];
      try discriminate; destruct P; now destruct sx, sy, sz.
Qed.

Lemma normalize_overflow_witness :
  let big := of_pow2 (P := Single) 1 64 in
  Vec2.isZero (Vec2.normalize (P := Single) (mkVec2 big r0)) = true
  /\ Vec2.isZero (Vec2.normalizeSelf (P := Single) (mkVec2 big r0)) = true
  /\ Vec2.isUnit (P := Single) (Vec2.normalize (P := Single) (mkVec2 big r0))
     = false.
Proof.
  apply (proj1 (normalize_overflow Single)
           (mkVec2 (of_pow2 (P := Single) 1 64) r0)); reflexivity.
Defined.

(** X13.  After [clear] a vector is zero and not unit, whatever it held
    (NaN included), and normalising it leaves it zero; no zero vector is a
    unit vector.  In both dimensions. *)
Theorem clear_is_zero :
  forall P : Precision,
    (forall v : Vec2_t,
        Vec2.isZero (Vec2.clear v) = true
        /\ Vec2.isUnit (Vec2.clear v) = false
        /\ Vec2.normalize (Vec2.clear v) = Vec2.clear v
        /\ (Vec2.isZero v = true -> Vec2.isUnit v = false))
    /\ (forall v : Vec3_t,
        Vec3.isZero (Vec3.clear v) = true
        /\ Vec3.isUnit (Vec3.clear v) = false
        /\ Vec3.normalize (Vec3.clear v) = Vec3.clear v
        /\ (Vec3.isZero v = true -> Vec3.isUnit v = false)).
Proof.
  intros P. split; intros v.
  - repeat split; try (now destruct P).
    intros Z. apply isZero_spec in Z as [Zx Zy].
    destruct v as [[[|]| | |] [[|]| | |]]; try discriminate; now destruct P.
  - repeat split; try (now destruct P).
    intros Z. apply isZero3_spec in Z as [Zx [Zy Zz]].
    destruct v as [[[|]| | |] [[|]| | |] [[|]| | |]]; try discriminate;
      now destruct P.
Qed.

Lemma clear_is_zero_witness :
  Vec2.isUnit (P := Single) (mkVec2 (S754_zero true) r0) = false
  /\ Vec3.isUnit (P := Single) (mkVec3 r0 (S754_zero true) r0) = false.
Proof.
  split.
  - apply (proj1 (clear_is_zero Single) (mkVec2 (S754_zero true) r0)).
    reflexivity.
  - apply (proj2 (clear_is_zero Single) (mkVec3 r0 (S754_zero true) r0)).
    reflexivity.
Defined.

(** X14.  The direction factories of [Vec3] form a right-handed orthonormal
    frame in both builds: [Right], [Up] and [Forward] are unit vectors,
    [Right x Up = Forward], [Up x Forward = Right], [Forward x Right = Up],
    their dot products are [0], and [Left], [Down], [Backward] are their
    negations. *)
Theorem Vec3_frame :
  forall P : Precision,
    Vec3.isUnit Vec3.Right = true /\ Vec3.isUnit Vec3.Up = true
    /\ Vec3.isUnit Vec3.Forward = true
    /\ Vec3.cross Vec3.Right Vec3.Up = Vec3.Forward
    /\ Vec3.cross Vec3.Up Vec3.Forward = Vec3.Right
    /\ Vec3.cross Vec3.Forward Vec3.Right = Vec3.Up
    /\ Vec3.dot Vec3.Right Vec3.Up = r0
    /\ Vec3.dot Vec3.Up Vec3.Forward = r0
    /\ Vec3.dot Vec3.Forward Vec3.Right = r0
    /\ Vec3.eqb Vec3.Left (Vec3.neg Vec3.Right) = true
    /\ Vec3.eqb Vec3.Down (Vec3.neg Vec3.Up) = true
    /\ Vec3.eqb Vec3.Backward (Vec3.neg Vec3.Forward) = true
    /\ Vec3.isZero Vec3.Zero = true.
Proof. intros [|]; vm_compute; repeat split. Qed.

(** ** Mat2 *)

Section Mat2Identity.
Context {P : Precision}.

Lemma good_parts (a : real) :
  good a = true -> valid a = true /\ is_finite a = true /\ is_nan a = false.
Proof.
  unfold good. intros H. apply andb_prop in H as [V F].
  repeat split; auto. now apply is_finite_not_nan.
Qed.

(** [a*1 + b*0] and [a*0 + b*1] for finite scalars of the format. *)
Lemma row_one_zero (a b : real) :
  good a = true -> good b = true ->
  (a * r1 + b * r0 ==? a) = true /\ (a * r0 + b * r1 ==? b) = true.
Proof.
  intros Ga Gb.
  destruct (good_parts a Ga) as [Va [Fa Na]].
  destruct (good_parts b Gb) as [Vb [Fb Nb]].
  rewrite !rmul_1_r by assumption. split.
  - apply radd_zero_r_eq; [now apply rmul_zero_finite|assumption].
  - apply radd_zero_l_eq; [now apply rmul_zero_finite|assumption].
Qed.

Lemma row_one_zero_l (a b : real) :
  good a = true -> good b = true ->
  (r1 * a + r0 * b ==? a) = true /\ (r0 * a + r1 * b ==? b) = true.
Proof.
  intros Ga Gb. rewrite (rmul_comm r1), (rmul_comm r0 b), (rmul_comm r0 a),
    (rmul_comm r1 b). now apply row_one_zero.
Qed.
End Mat2Identity.

(** X15.  The default-constructed matrix is the identity on finite vectors
    and matrices of the format: [I * v == v], [A * I == A] and [I * A == A],
    component by component.  It is not the identity on a vector with an
    infinite component: [I * (inf, 1)] is [(inf, NaN)]. *)
Theorem Mat2_identity :
  (forall (P : Precision) (v : Vec2_t),
      good2 v = true -> eq2 (Mat2.apply Mat2.identity v) v = true)
  /\ (forall (P : Precision) (A : Mat2_t),
      goodm A = true ->
      eqm (Mat2.mul A Mat2.identity) A = true
      /\ eqm (Mat2.mul Mat2.identity A) A = true)
  /\ Mat2.apply (P := Single) (Mat2.identity (P := Single))
       (mkVec2 (S754_infinity false) (f32 1 1))
     = mkVec2 (S754_infinity false) S754_nan.
Proof.
  split; [|split; [|reflexivity]].
  - intros P [x y] G. unfold good2 in G; cbn [x2 y2] in G.
    apply andb_prop in G as [Gx Gy].
    unfold eq2, Mat2.apply, Mat2.identity; cbn [x2 y2 m00 m01 m10 m11].
    destruct (row_one_zero_l x y Gx Gy) as [-> ->]. reflexivity.
  - intros P [a b c d] G. unfold goodm in G; cbn [m00 m01 m10 m11] in G.
    apply andb_prop in G as [G Gd]. apply andb_prop in G as [G Gc].
    apply andb_prop in G as [Ga Gb].
    unfold eqm, Mat2.mul, Mat2.identity; cbn [m00 m01 m10 m11].
    destruct (row_one_zero a b Ga Gb) as [-> ->].
    destruct (row_one_zero c d Gc Gd) as [-> ->].
    destruct (row_one_zero_l a c Ga Gc) as [-> ->].
    destruct (row_one_zero_l b d Gb Gd) as [-> ->].
    now split.
Qed.

Lemma Mat2_identity_witness :
  eq2 (Mat2.apply (P := Single) (Mat2.identity (P := Single))
         (mkVec2 (f32 3 1) (f32 4 1)))
      (mkVec2 (f32 3 1) (f32 4 1)) = true
  /\ eqm (Mat2.mul (P := Single) (mkMat2 (f32 2 1) (f32 3 1) (f32 4 1) (f32 5 1))
            (Mat2.identity (P := Single)))
         (mkMat2 (f32 2 1) (f32 3 1) (f32 4 1) (f32 5 1)) = true.
Proof.
  split.
  - apply (proj1 Mat2_identity Single (mkVec2 (f32 3 1) (f32 4 1))).
    reflexivity.
  - apply (proj1 (proj2 Mat2_identity) Single
             (mkMat2 (f32 2 1) (f32 3 1) (f32 4 1) (f32 5 1))).
    reflexivity.
Defined.

(** ** Geometry2D *)

(** X16.  A segment reduced to a point: for every finite [a] and every [p],
    [ClosestPointOnLineSegment(a, a, p)] has two NaN components (the
    parameter is [0/0] and the clamp lets NaN through). *)
Theorem ClosestPointOnLineSegment_point_segment :
  forall (P : Precision) (a p : Vec2_t),
    finite2 a = true ->
    Geometry2D.ClosestPointOnLineSegment a a p = mkVec2 S754_nan S754_nan.
Proof.
  intros P [ax ay] [px py] F. unfold finite2 in F; cbn [x2 y2] in F.
  apply andb_prop in F as [Fx Fy].
  unfold Geometry2D.ClosestPointOnLineSegment, Vec2.sub; cbn [x2 y2].
  rewrite !rsub_diag by assumption.
  unfold Vec2.dot, Vec2.lengthSquared; cbn [x2 y2].
  assert (Ht : ((px - ax) * S754_zero false + (py - ay) * S754_zero false)
               / (S754_zero false * S754_zero false
                  + S754_zero false * S754_zero false) = S754_nan).
  { apply rdiv_zero_or_nan_zero; [|reflexivity].
    apply radd_zero_or_nan; now apply rmul_zero_any. }
  rewrite Ht.
  assert (Hc : MathTools.Clamp S754_nan (of_Z 0) (of_Z 1) = S754_nan)
    by now destruct P.
  rewrite Hc. unfold Vec2.add, Vec2.mul; cbn [x2 y2].
  now destruct ax, ay.
Qed.

Lemma ClosestPointOnLineSegment_point_segment_witness :
  Geometry2D.ClosestPointOnLineSegment (P := Single)
    (mkVec2 (f32 1 1) (f32 2 1)) (mkVec2 (f32 1 1) (f32 2 1))
    (mkVec2 (f32 3 1) r0)
  = mkVec2 S754_nan S754_nan.
Proof.
  apply (ClosestPointOnLineSegment_point_segment Single). reflexivity.
Defined.

(** X17.  On a segment with finite end points whose squared length is a
    non-zero number, the closest point to the start point [a] is [a] itself
    (component-wise [==]). *)
Theorem ClosestPointOnLineSegment_start :
  forall (P : Precision) (a b : Vec2_t),
    finite2 a = true -> finite2 (Vec2.sub b a) = true ->
    is_nan (Vec2.lengthSquared (Vec2.sub b a)) = false ->
    is_zero (Vec2.lengthSquared (Vec2.sub b a)) = false ->
    eq2 (Geometry2D.ClosestPointOnLineSegment a b a) a = true.
Proof.
  intros P [ax ay] b F Fab Nn Nz.
  unfold finite2 in F; cbn [x2 y2] in F. apply andb_prop in F as [Fx Fy].
  unfold Geometry2D.ClosestPointOnLineSegment.
  set (ab := Vec2.sub b (mkVec2 ax ay)) in *.
  unfold finite2 in Fab. apply andb_prop in Fab as [Fabx Faby].
  assert (Hs : Vec2.sub (mkVec2 ax ay) (mkVec2 ax ay) = mkVec2 r0 r0)
    by (unfold Vec2.sub; cbn [x2 y2]; now rewrite !rsub_diag).
  rewrite Hs.
  assert (Hd : is_zero (Vec2.dot (mkVec2 r0 r0) ab) = true).
  { unfold Vec2.dot; cbn [x2 y2].
    apply radd_zero_zero; now apply rmul_finite_zero. }
  assert (Ht : is_zero (Vec2.dot (mkVec2 r0 r0) ab / Vec2.lengthSquared ab) = true)
    by now apply rdiv_zero_l.
  set (t := Vec2.dot (mkVec2 r0 r0) ab / Vec2.lengthSquared ab) in *.
  assert (Hc : MathTools.Clamp t (of_Z 0) (of_Z 1) = t).
  { destruct t as [st| | |]; try discriminate. now destruct P, st. }
  rewrite Hc. unfold eq2, Vec2.add, Vec2.mul; cbn [x2 y2].
  rewrite !radd_zero_r_eq; try reflexivity;
    try (now apply rmul_zero_finite); now apply is_finite_not_nan.
Qed.

Lemma ClosestPointOnLineSegment_start_witness :
  eq2 (Geometry2D.ClosestPointOnLineSegment (P := Single)
         (mkVec2 (f32 1 1) (f32 2 1)) (mkVec2 (f32 3 1) (f32 5 1))
         (mkVec2 (f32 1 1) (f32 2 1)))
      (mkVec2 (f32 1 1) (f32 2 1)) = true.
Proof.
  apply (ClosestPointOnLineSegment_start Single); reflexivity.
Defined.

(** ** Integration2D *)

(** X18.  A zero time step changes nothing: with a finite velocity and
    acceleration and a position that is a number, after [Euler] or [RK2]
    with [dt = 0] the position and the velocity compare equal to the ones
    before.  And for every input the two integrators leave the same
    velocity. *)
Theorem zero_step_is_identity :
  forall (P : Precision) (p v a : Vec2_t) (dt : real),
    velocity (Integration2D.Euler (mkBody p v) a dt)
    = velocity (Integration2D.RK2 (mkBody p v) a dt)
    /\ (is_zero dt = true -> finite2 v = true -> finite2 a = true ->
        is_nan (x2 p) = false -> is_nan (y2 p) = false ->
        let e := Integration2D.Euler (mkBody p v) a dt in
        let r := Integration2D.RK2 (mkBody p v) a dt in
        eq2 (position e) p = true /\ eq2 (velocity e) v = true
        /\ eq2 (position r) p = true /\ eq2 (velocity r) v = true).
Proof.
  intros P [px py] [vx vy] [ax ay] dt. split; [reflexivity|].
  intros Hz Fv Fa Npx Npy.
  unfold finite2 in Fv, Fa; cbn [x2 y2] in *.
  apply andb_prop in Fv as [Fvx Fvy]. apply andb_prop in Fa as [Fax Fay].
  assert (Hh : is_zero (dt * rhalf) = true).
  { apply rmul_finite_zero; [assumption|now destruct P]. }
  cbn zeta.
  unfold Integration2D.Euler, Integration2D.RK2, eq2,
    Vec2.add_assign, Vec2.add, Vec2.mul, Vec2.set_x, Vec2.set_y;
    cbn [x2 y2 position velocity].
  assert (Zx : is_zero (ax * dt) = true) by now apply rmul_zero_finite.
  assert (Zy : is_zero (ay * dt) = true) by now apply rmul_zero_finite.
  assert (Zhx : is_zero (ax * (dt * rhalf)) = true) by now apply rmul_zero_finite.
  assert (Zhy : is_zero (ay * (dt * rhalf)) = true) by now apply rmul_zero_finite.
  repeat split; apply andb_true_intro; split;
    apply radd_zero_r_eq;
    try assumption; try (now apply is_finite_not_nan);
    apply rmul_zero_finite; try assumption;
    now apply radd_zero_r_finite.
Qed.

Lemma zero_step_is_identity_witness :
  let e := Integration2D.Euler (P := Single) (scenario_start Single)
             (scenario_acc Single) r0 in
  let r := Integration2D.RK2 (P := Single) (scenario_start Single)
             (scenario_acc Single) r0 in
  eq2 (position e) (position (scenario_start Single)) = true
  /\ eq2 (velocity e) (velocity (scenario_start Single)) = true
  /\ eq2 (position r) (position (scenario_start Single)) = true
  /\ eq2 (velocity r) (velocity (scenario_start Single)) = true.
Proof.
  apply (proj2 (zero_step_is_identity Single (position (scenario_start Single))
                  (velocity (scenario_start Single)) (scenario_acc Single) r0));
    reflexivity.
Defined.

(** ** Vec2: rotation by a zero angle, negation *)

Lemma is_zero_rneg (a : real) : is_zero (- a) = is_zero a.
Proof. now destruct a. Qed.

(** X19.  At an angle where the library's cosine is [1] and its sine a zero
    (the zero angle), [rotate] returns a finite vector of the format
    unchanged and [Rotation] is the identity matrix, component-wise
    [==]. *)
Theorem rotate_zero_angle :
  forall (P : Precision) (M : Libm) (v : Vec2_t) (rads : real),
    cos rads = r1 -> is_zero (sin rads) = true ->
    eqm (Mat2.Rotation rads) Mat2.identity = true
    /\ (good2 v = true -> eq2 (Vec2.rotate v rads) v = true).
Proof.
  intros P M [x y] rads Hc Hs. split.
  - unfold eqm, Mat2.Rotation, Mat2.identity; cbn [m00 m01 m10 m11].
    rewrite Hc. destruct (sin rads) as [[|]| | |]; try discriminate;
      now destruct P.
  - intros G. unfold good2 in G; cbn [x2 y2] in G.
    apply andb_prop in G as [Gx Gy].
    destruct (good_parts x Gx) as [Vx [Fx Nx]].
    destruct (good_parts y Gy) as [Vy [Fy Ny]].
    unfold eq2, Vec2.rotate; cbn [x2 y2]. rewrite Hc.
    rewrite !rmul_1_r, rsub_add_neg by assumption.
    apply andb_true_intro; split.
    + apply radd_zero_r_eq; [|assumption].
      rewrite is_zero_rneg. now apply rmul_zero_finite.
    + apply radd_zero_l_eq; [|assumption]. now apply rmul_zero_finite.
Qed.

Lemma rotate_zero_angle_witness :
  eqm (Mat2.Rotation (M := libm_zero_angle) r0) (Mat2.identity (P := Single))
  = true
  /\ eq2 (Vec2.rotate (P := Single) (M := libm_zero_angle)
            (mkVec2 (f32 3 1) (f32 4 1)) r0)
         (mkVec2 (f32 3 1) (f32 4 1)) = true.
Proof.
  destruct (rotate_zero_angle Single libm_zero_angle
              (mkVec2 (f32 3 1) (f32 4 1)) r0 eq_refl eq_refl) as [H1 H2].
  split; [exact H1|]. apply H2. reflexivity.
Defined.

(** X20.  Negating a vector keeps its squared length, its length and the
    answers of [isUnit] and [isZero], exactly; negating twice gives the
    vector back.  In both dimensions. *)
Theorem negation_keeps_length :
  forall P : Precision,
    (forall v : Vec2_t,
        Vec2.lengthSquared (Vec2.neg v) = Vec2.lengthSquared v
        /\ Vec2.length (Vec2.neg v) = Vec2.length v
        /\ Vec2.isUnit (Vec2.neg v) = Vec2.isUnit v
        /\ Vec2.isZero (Vec2.neg v) = Vec2.isZero v
        /\ Vec2.neg (Vec2.neg v) = v)
    /\ (forall v : Vec3_t,
        Vec3.lengthSquared (Vec3.neg v) = Vec3.lengthSquared v
        /\ Vec3.length (Vec3.neg v) = Vec3.length v
        /\ Vec3.isUnit (Vec3.neg v) = Vec3.isUnit v
        /\ Vec3.isZero (Vec3.neg v) = Vec3.isZero v
        /\ Vec3.neg (Vec3.neg v) = v).
Proof.
  assert (Hz : forall a : real, (- a ==? r0) = (a ==? r0))
    by (intros [[|]|[|]| |[|] m e]; reflexivity).
  intros P; split; intros v.
  - destruct v as [x y].
    unfold Vec2.isUnit, Vec2.isZero, Vec2.length, Vec2.lengthSquared, Vec2.neg;
      cbn [x2 y2].
    now rewrite !rmul_neg_neg, !rneg_involutive, !Hz.
  - destruct v as [x y z].
    unfold Vec3.isUnit, Vec3.isZero, Vec3.length, Vec3.lengthSquared, Vec3.neg;
      cbn [x3 y3 z3].
    now rewrite !rmul_neg_neg, !rneg_involutive, !Hz.
Qed.
